(** * id-match-magic: field extraction and comparison

    A shallow embedding of the two components that carry the decision
    logic of the identity-document wizard:

    - [DocumentUpload]: [cleanOCRText] and [extractDataFromText], the
      regex-driven extraction of name, date of birth, ID number and phone
      number from OCR text;
    - [IdVerificationForm]: [normalizeText], [normalizeDate],
      [normalizePhone], [compareFields], [compareDates], [comparePhones]
      and the verdict computed by [handleVerify].

    JavaScript strings are modelled as lists of 8-bit characters (the
    Latin-1 code units); the regular expressions of the source are values
    of a small regex syntax run by a backtracking matcher that follows the
    ECMAScript matcher (greedy quantifiers, leftmost alternative first,
    continuation passing). *)

From Stdlib Require Import Ascii String List Bool Arith ZArith Lia.
Import ListNotations.

Local Open Scope list_scope.
Local Open Scope bool_scope.

(** ** JavaScript strings *)

Module JS.

Definition str := list ascii.

Definition lit (s : string) : str := list_ascii_of_string s.

Definition code (c : ascii) : nat := nat_of_ascii c.

Definition inRange (lo hi : nat) (c : ascii) : bool :=
  (lo <=? code c) && (code c <=? hi).

(** [\d] *)
Definition isDigit (c : ascii) : bool := inRange 48 57 c.
(** [[A-Z]] *)
Definition isUpper (c : ascii) : bool := inRange 65 90 c.
(** [[a-z]] *)
Definition isLower (c : ascii) : bool := inRange 97 122 c.

(** [\s], and the characters removed by [trim]: TAB, LF, VT, FF, CR,
    space and the no-break space. *)
Definition isSpace (c : ascii) : bool :=
  inRange 9 13 c || (code c =? 32) || (code c =? 160).

(** The word characters of [\b]: [[A-Za-z0-9_]]. *)
Definition isWord (c : ascii) : bool :=
  isDigit c || isUpper c || isLower c || (code c =? 95).

(** Latin-1 letters with a case counterpart inside Latin-1. *)
Definition isUpperL1 (c : ascii) : bool :=
  inRange 192 222 c && negb (code c =? 215).
Definition isLowerL1 (c : ascii) : bool :=
  inRange 224 254 c && negb (code c =? 247).

Definition toLowerChar (c : ascii) : ascii :=
  if isUpper c || isUpperL1 c then ascii_of_nat (code c + 32) else c.

Definition toUpperChar (c : ascii) : ascii :=
  if isLower c || isLowerL1 c then ascii_of_nat (code c - 32) else c.

(** [String.prototype.toLowerCase] *)
Definition toLowerCase (s : str) : str := map toLowerChar s.

Definition strEq (a b : str) : bool :=
  if list_eq_dec ascii_dec a b then true else false.

Fixpoint startsWith (s t : str) {struct t} : bool :=
  match t, s with
  | [], _ => true
  | _ :: _, [] => false
  | y :: t', x :: s' => Ascii.eqb x y && startsWith s' t'
  end.

(** [s.includes(t)] *)
Fixpoint includes (s t : str) : bool :=
  startsWith s t ||
  match s with
  | [] => false
  | _ :: s' => includes s' t
  end.

Fixpoint dropWhile (p : ascii -> bool) (s : str) : str :=
  match s with
  | [] => []
  | c :: s' => if p c then dropWhile p s' else s
  end.

(** [s.trim()] *)
Definition trim (s : str) : str :=
  rev (dropWhile isSpace (rev (dropWhile isSpace s))).

(** [s.split(sep)] for a separator that is one character, or a regex
    that is one character class: the pieces between the separators. *)
Fixpoint splitBy (sep : ascii -> bool) (s : str) : list str :=
  match s with
  | [] => [[]]
  | c :: s' =>
      if sep c then [] :: splitBy sep s'
      else match splitBy sep s' with
           | [] => [[c]]
           | p :: ps => (c :: p) :: ps
           end
  end.

(** A string is truthy when it is not empty. *)
Definition truthy (s : str) : bool :=
  match s with [] => false | _ :: _ => true end.

(** An optional string ([string | undefined]) is truthy when it is
    defined and not empty. *)
Definition truthyOpt (o : option str) : bool :=
  match o with Some s => truthy s | None => false end.

(** *** Regular expressions *)

(** Character classes. *)
Inductive cclass : Type :=
| CChar (c : ascii)
| CRange (lo hi : ascii)
| CDigit
| CSpace
| CUnion (a b : cclass)
| CNot (a : cclass).

(** Membership; with the [i] flag two characters are compared through
    their upper-case forms. *)
Fixpoint cmem (ic : bool) (cls : cclass) (c : ascii) : bool :=
  match cls with
  | CChar x =>
      if ic then Ascii.eqb (toUpperChar x) (toUpperChar c) else Ascii.eqb x c
  | CRange lo hi =>
      let r := inRange (code lo) (code hi) in
      if ic then r c || r (toUpperChar c) || r (toLowerChar c) else r c
  | CDigit => isDigit c
  | CSpace => isSpace c
  | CUnion a b => cmem ic a c || cmem ic b c
  | CNot a => negb (cmem ic a c)
  end.

(** The regex syntax: [RGroup] is the capturing group number 1 (no regex
    of the source has a second one), [(?:...)] needs no node. *)
Inductive regex : Type :=
| RClass (cls : cclass)
| REmpty
| RSeq (r1 r2 : regex)
| RAlt (r1 r2 : regex)
| RRep (lo : nat) (hi : option nat) (r : regex)
| RGroup (r : regex)
| RBol
| REol
| RWordB.

(** The matcher state: the characters already consumed (last one first),
    the rest of the input, and the text of capture 1. *)
Record mstate : Type := MState {
  before : str;
  after : str;
  cap1 : option str
}.

Definition cont := mstate -> option mstate.

Definition headIsWord (s : str) : bool :=
  match s with [] => false | c :: _ => isWord c end.

(** The optional iterations of a greedy quantifier: at most [e] more, each
    one consuming at least a character; the continuation is tried when no
    further iteration leads to a match. *)
Fixpoint repOpt (body : cont -> cont) (k : cont) (e : nat) (st : mstate)
  : option mstate :=
  match e with
  | 0 => k st
  | S e' =>
      match body (fun st' =>
                    if length (after st') =? length (after st) then None
                    else repOpt body k e' st') st with
      | Some res => Some res
      | None => k st
      end
  end.

(** The mandatory iterations of a quantifier. *)
Fixpoint repReq (body : cont -> cont) (k : cont) (n : nat) (st : mstate)
  : option mstate :=
  match n with
  | 0 => k st
  | S n' => body (repReq body k n') st
  end.

(** The backtracking matcher. An unbounded quantifier runs at most as many
    optional iterations as characters are left: each takes at least one. *)
Fixpoint m (ic : bool) (r : regex) (k : cont) (st : mstate) {struct r}
  : option mstate :=
  match r with
  | RClass cls =>
      match after st with
      | c :: rest =>
          if cmem ic cls c then k (MState (c :: before st) rest (cap1 st))
          else None
      | [] => None
      end
  | REmpty => k st
  | RSeq r1 r2 => m ic r1 (m ic r2 k) st
  | RAlt r1 r2 =>
      match m ic r1 k st with
      | Some res => Some res
      | None => m ic r2 k st
      end
  | RRep lo hi r' =>
      let extra := match hi with
                   | Some h => h - lo
                   | None => length (after st)
                   end in
      repReq (m ic r') (repOpt (m ic r') k extra) lo st
  | RGroup r' =>
      m ic r'
        (fun st' =>
           k (MState (before st') (after st')
                (Some (firstn (length (after st) - length (after st'))
                         (after st)))))
        st
  | RBol => match before st with [] => k st | _ :: _ => None end
  | REol => match after st with [] => k st | _ :: _ => None end
  | RWordB =>
      if xorb (headIsWord (before st)) (headIsWord (after st)) then k st
      else None
  end.

(** A regex literal: its pattern and its [i] and [g] flags. *)
Record RegExp : Type := mkRegExp {
  source : regex;
  ignoreCase : bool;
  global : bool
}.

(** What a call that may throw comes to. *)
Inductive exn : Type := TypeError.

Inductive completion (A : Type) : Type :=
| Normal (a : A)
| Throw (e : exn).

Arguments Normal {A} a.
Arguments Throw {A} e.

Definition bind {A B : Type} (c : completion A) (f : A -> completion B)
  : completion B :=
  match c with
  | Normal a => f a
  | Throw e => Throw e
  end.

(** A match: the matched text [match[0]] and capture 1 [match[1]]. *)
Record Match : Type := mkMatch {
  m0 : str;
  m1 : option str
}.

(** A match attempt at one position: [pre] holds the characters before it
    (last one first), [suf] the input from it on. *)
Definition matchAt (re : RegExp) (pre suf : str) : option Match :=
  match m (ignoreCase re) (source re) (fun st => Some st)
          (MState pre suf None) with
  | Some st' =>
      Some (mkMatch (firstn (length suf - length (after st')) suf) (cap1 st'))
  | None => None
  end.

(** The leftmost match at or after the current position. *)
Fixpoint search (re : RegExp) (pre suf : str) : option Match :=
  match matchAt re pre suf with
  | Some x => Some x
  | None =>
      match suf with
      | [] => None
      | c :: suf' => search re (c :: pre) suf'
      end
  end.

(** [re.exec(s)] and [s.match(re)] for a regex without the [g] flag. *)
Definition exec (re : RegExp) (s : str) : option Match := search re [] s.

(** [re.test(s)] for a regex without the [g] flag. *)
Definition test (re : RegExp) (s : str) : bool :=
  match exec re s with Some _ => true | None => false end.

(** The successive matches of a [g] regex. The input is walked once; [skip]
    counts the characters still covered by the previous match, where no new
    match may start. After an empty match the search moves on by one
    character. *)
Fixpoint matchesFrom (re : RegExp) (skip : nat) (pre suf : str)
  : list Match :=
  match (if skip =? 0 then matchAt re pre suf else None) with
  | Some x =>
      x :: match suf with
           | [] => []
           | c :: suf' => matchesFrom re (length (m0 x) - 1) (c :: pre) suf'
           end
  | None =>
      match suf with
      | [] => []
      | c :: suf' => matchesFrom re (skip - 1) (c :: pre) suf'
      end
  end.

(** [s.matchAll(re)]: a regex without the [g] flag makes the call throw a
    [TypeError]. *)
Definition matchAll (re : RegExp) (s : str) : completion (list Match) :=
  if global re then Normal (matchesFrom re 0 [] s) else Throw TypeError.

(** [s.match(re)] for a [g] regex: the matched texts, [null] when there is
    none. *)
Definition matchG (re : RegExp) (s : str) : option (list str) :=
  match matchesFrom re 0 [] s with
  | [] => None
  | ms => Some (map m0 ms)
  end.

(** [s.replace(re, rep)] for a [g] regex and a replacement without [$]
    patterns: every match is replaced, the characters outside the matches
    are copied. *)
Fixpoint replaceFrom (re : RegExp) (rep : str) (skip : nat) (pre suf : str)
  : str :=
  match (if skip =? 0 then matchAt re pre suf else None) with
  | Some x =>
      rep ++ match suf with
             | [] => []
             | c :: suf' =>
                 (if length (m0 x) =? 0 then [c] else []) ++
                 replaceFrom re rep (length (m0 x) - 1) (c :: pre) suf'
             end
  | None =>
      match suf with
      | [] => []
      | c :: suf' =>
          (if skip =? 0 then [c] else []) ++
          replaceFrom re rep (skip - 1) (c :: pre) suf'
      end
  end.

Definition replaceAll (re : RegExp) (rep : str) (s : str) : str :=
  replaceFrom re rep 0 [] s.

(** Builders for the regex literals. *)
Definition rchar (c : ascii) : regex := RClass (CChar c).

Fixpoint rstr (s : str) : regex :=
  match s with
  | [] => REmpty
  | [c] => rchar c
  | c :: s' => RSeq (rchar c) (rstr s')
  end.

Fixpoint rseq (rs : list regex) : regex :=
  match rs with
  | [] => REmpty
  | [r] => r
  | r :: rs' => RSeq r (rseq rs')
  end.

Definition rplus (r : regex) : regex := RRep 1 None r.
Definition rstar (r : regex) : regex := RRep 0 None r.
Definition ropt (r : regex) : regex := RRep 0 (Some 1) r.
Definition rtimes (n : nat) (r : regex) : regex := RRep n (Some n) r.

Definition cAZ : cclass := CRange "A" "Z".
Definition caz : cclass := CRange "a" "z".
Definition c09 : cclass := CRange "0" "9".

(** The value of the longest prefix of decimal digits. *)
Fixpoint digitsValue (acc : nat) (s : str) : nat :=
  match s with
  | [] => acc
  | c :: s' =>
      if isDigit c then digitsValue (10 * acc + (code c - 48)) s' else acc
  end.

(** [parseInt(s)]: leading white space, an optional sign, then the longest
    run of decimal digits; [None] stands for [NaN]. (A [0x] prefix, which
    selects base 16, is read as the digit 0: no caller passes one.) *)
Definition parseInt (s : str) : option Z :=
  let s1 := dropWhile isSpace s in
  let '(neg, s2) :=
    match s1 with
    | "-"%char :: t => (true, t)
    | "+"%char :: t => (false, t)
    | _ => (false, s1)
    end in
  match s2 with
  | c :: _ =>
      if isDigit c then
        let v := Z.of_nat (digitsValue 0 s2) in
        Some (if neg then Z.opp v else v)
      else None
  | [] => None
  end.

End JS.

(** ** DocumentUpload: cleaning the OCR text and extracting the fields *)

Module DocumentUpload.
Import JS.

Record ExtractedData : Type := mkExtractedData {
  name : option str;
  dateOfBirth : option str;
  idNumber : option str;
  phoneNumber : option str
}.

Definition LF : ascii := "010"%char.

Definition digit : regex := RClass CDigit.
Definition space : regex := RClass CSpace.

(** [/\s+/g], [/[|]/g], [/[0O]/g], [/\n\s*\n/g] *)
Definition re_whitespace : RegExp := mkRegExp (rplus space) false true.
Definition re_bar : RegExp := mkRegExp (RClass (CChar "|")) false true.
Definition re_zero : RegExp :=
  mkRegExp (RClass (CUnion (CChar "0") (CChar "O"))) false true.
Definition re_blankLines : RegExp :=
  mkRegExp (rseq [rchar LF; rstar space; rchar LF]) false true.

Definition cleanOCRText (text : str) : str :=
  trim
    (replaceAll re_blankLines [LF]
       (replaceAll re_zero (lit "0")
          (replaceAll re_bar (lit "I")
             (replaceAll re_whitespace (lit " ") text)))).

Definition skipNames : list str :=
  [ lit "government of india";
    lit "unique identification authority";
    lit "aadhaar";
    lit "aadhar";
    lit "identity card";
    lit "permanent account number";
    lit "pan card";
    lit "driving license";
    lit "voter id" ].

(** [[A-Z][a-z]+] *)
Definition properWord : regex := RSeq (RClass cAZ) (rplus (RClass caz)).

(** [[A-Z][a-z]+(?:\s[A-Z][a-z]+){1,3}] *)
Definition properName : regex :=
  RSeq properWord (RRep 1 (Some 3) (RSeq space properWord)).

Definition patterns_aadhaarNumber : list RegExp :=
  [ (* /\b(\d{4}\s?\d{4}\s?\d{4})\b/g *)
    mkRegExp
      (rseq [RWordB;
             RGroup (rseq [rtimes 4 digit; ropt space; rtimes 4 digit;
                           ropt space; rtimes 4 digit]);
             RWordB])
      false true;
    (* /\b(\d{12})\b/g *)
    mkRegExp (rseq [RWordB; RGroup (rtimes 12 digit); RWordB]) false true ].

Definition patterns_name : list RegExp :=
  [ (* /^([A-Z][a-z]+(?:\s[A-Z][a-z]+){1,3})$/ *)
    mkRegExp (rseq [RBol; RGroup properName; REol]) false false;
    (* /(?:name|naam)[\s:]+([A-Z][a-z]+(?:\s[A-Z][a-z]+){1,3})/i *)
    mkRegExp
      (rseq [RAlt (rstr (lit "name")) (rstr (lit "naam"));
             rplus (RClass (CUnion CSpace (CChar ":")));
             RGroup properName])
      true false;
    (* /\b([A-Z][a-z]+\s[A-Z][a-z]+(?:\s[A-Z][a-z]+)?)\b/ *)
    mkRegExp
      (rseq [RWordB;
             RGroup (rseq [properWord; space; properWord;
                           ropt (RSeq space properWord)]);
             RWordB])
      false false ].

Definition dateSep : cclass := CUnion (CChar "/") (CChar "-").

Definition patterns_dateOfBirth : list RegExp :=
  [ (* /\b(\d{1,2}\/\d{1,2}\/\d{4})\b/g *)
    mkRegExp
      (rseq [RWordB;
             RGroup (rseq [RRep 1 (Some 2) digit; rchar "/";
                           RRep 1 (Some 2) digit; rchar "/"; rtimes 4 digit]);
             RWordB])
      false true;
    (* /\b(\d{1,2}-\d{1,2}-\d{4})\b/g *)
    mkRegExp
      (rseq [RWordB;
             RGroup (rseq [RRep 1 (Some 2) digit; rchar "-";
                           RRep 1 (Some 2) digit; rchar "-"; rtimes 4 digit]);
             RWordB])
      false true;
    (* /(?:dob|date of birth|born)[\s:]*(\d{1,2}[\/\-]\d{1,2}[\/\-]\d{4})/i *)
    mkRegExp
      (rseq [RAlt (rstr (lit "dob"))
               (RAlt (rstr (lit "date of birth")) (rstr (lit "born")));
             rstar (RClass (CUnion CSpace (CChar ":")));
             RGroup (rseq [RRep 1 (Some 2) digit; RClass dateSep;
                           RRep 1 (Some 2) digit; RClass dateSep;
                           rtimes 4 digit])])
      true false;
    (* /\b(19\d{2}|20\d{2})\b/g *)
    mkRegExp
      (rseq [RWordB;
             RGroup (RAlt (RSeq (rstr (lit "19")) (rtimes 2 digit))
                          (RSeq (rstr (lit "20")) (rtimes 2 digit)));
             RWordB])
      false true ].

Definition c69 : cclass := CRange "6" "9".

Definition patterns_phoneNumber : list RegExp :=
  [ (* /\b([6-9]\d{9})\b/g *)
    mkRegExp
      (rseq [RWordB; RGroup (RSeq (RClass c69) (rtimes 9 digit)); RWordB])
      false true;
    (* /\+91[\s\-]?([6-9]\d{9})/g *)
    mkRegExp
      (rseq [rstr (lit "+91"); ropt (RClass (CUnion CSpace (CChar "-")));
             RGroup (RSeq (RClass c69) (rtimes 9 digit))])
      false true;
    (* /\b([6-9]\d{4}[\s\-]?\d{5})\b/g *)
    mkRegExp
      (rseq [RWordB;
             RGroup (rseq [RClass c69; rtimes 4 digit;
                           ropt (RClass (CUnion CSpace (CChar "-")));
                           rtimes 5 digit]);
             RWordB])
      false true;
    (* /\b(\d{10})\b/g *)
    mkRegExp (rseq [RWordB; RGroup (rtimes 10 digit); RWordB]) false true ].

(** The validating regexes: [/\s/g], [/^\d{12}$/], [/[\s\-]/g],
    [/^[6-9]\d{9}$/], [/\d/], [/^[A-Z][a-z]+(?:\s[A-Z][a-z]+){1,3}$/],
    [/\n/g] and the full-text name regex
    [/\b([A-Z][a-z]{2,}\s[A-Z][a-z]{2,}(?:\s[A-Z][a-z]{2,})?)\b/g]. *)
Definition re_space : RegExp := mkRegExp space false true.
Definition re_twelveDigits : RegExp :=
  mkRegExp (rseq [RBol; rtimes 12 digit; REol]) false false.
Definition re_spaceOrDash : RegExp :=
  mkRegExp (RClass (CUnion CSpace (CChar "-"))) false true.
Definition re_mobile : RegExp :=
  mkRegExp (rseq [RBol; RClass c69; rtimes 9 digit; REol]) false false.
Definition re_anyDigit : RegExp := mkRegExp digit false false.
Definition re_properName : RegExp :=
  mkRegExp (rseq [RBol; properName; REol]) false false.
Definition re_newline : RegExp := mkRegExp (rchar LF) false true.

(** [[A-Z][a-z]{2,}] *)
Definition longWord : regex := RSeq (RClass cAZ) (RRep 2 None (RClass caz)).

Definition re_fullTextName : RegExp :=
  mkRegExp
    (rseq [RWordB;
           RGroup (rseq [longWord; space; longWord;
                         ropt (RSeq space longWord)]);
           RWordB])
    false true.

(** The body of [for (const match of matches)]: the first match whose
    capture is truthy and accepted sets the field and ends the loop. *)
Fixpoint firstAccepted (accept : str -> option str) (ms : list Match)
  : option str :=
  match ms with
  | [] => None
  | x :: ms' =>
      match m1 x with
      | Some g =>
          if truthy g then
            match accept g with
            | Some v => Some v
            | None => firstAccepted accept ms'
            end
          else firstAccepted accept ms'
      | None => firstAccepted accept ms'
      end
  end.

(** [for (const pattern of patterns) { matches = cleanedText.matchAll(pattern);
    ...; if (data.field) break; }] with [cur] the field of [data]. *)
Fixpoint scanPatterns (accept : str -> option str) (cleanedText : str)
  (ps : list RegExp) (cur : option str) : completion (option str) :=
  match ps with
  | [] => Normal cur
  | pattern :: ps' =>
      bind (matchAll pattern cleanedText) (fun matches =>
        let cur' :=
          match firstAccepted accept matches with
          | Some v => Some v
          | None => cur
          end in
        if truthyOpt cur' then Normal cur'
        else scanPatterns accept cleanedText ps' cur')
  end.

Definition acceptAadhaar (g : str) : option str :=
  let aadhaar := replaceAll re_space [] g in
  if (length aadhaar =? 12) && test re_twelveDigits aadhaar
  then Some aadhaar else None.

Definition acceptPhone (g : str) : option str :=
  let phone := replaceAll re_spaceOrDash [] g in
  if (length phone =? 10) && test re_mobile phone
  then Some phone else None.

Definition birthYear (year : option Z) : bool :=
  match year with
  | Some y => (1900 <=? y)%Z && (y <=? 2010)%Z
  | None => false
  end.

Definition acceptDate (dateStr : str) : option str :=
  if includes dateStr (lit "/") || includes dateStr (lit "-") then
    let parts := splitBy (cmem false dateSep) dateStr in
    if length parts =? 3 then
      if birthYear (parseInt (nth 2 parts [])) then Some dateStr else None
    else None
  else if length dateStr =? 4 then
    if birthYear (parseInt dateStr) then Some dateStr else None
  else None.

Definition isHeaderText (lower : str) : bool :=
  existsb (fun skip => includes lower skip) skipNames.

(** One turn of [for (const pattern of patterns.name)] on a line. *)
Definition nameFromMatch (mt : option Match) : option str :=
  match mt with
  | Some x =>
      match m1 x with
      | Some g =>
          if truthy g then
            let nameCandidate := trim g in
            if (4 <=? length nameCandidate) && (length nameCandidate <=? 35)
               && test re_properName nameCandidate
            then
              if negb (isHeaderText (toLowerCase nameCandidate))
              then Some nameCandidate else None
            else None
          else None
      | None => None
      end
  | None => None
  end.

Fixpoint namePatterns (line : str) (ps : list RegExp) : option str :=
  match ps with
  | [] => None
  | pattern :: ps' =>
      match nameFromMatch (exec pattern line) with
      | Some v => Some v
      | None => namePatterns line ps'
      end
  end.

(** [for (const line of lines)] with [cur] the field [data.name]. *)
Fixpoint nameLines (lines : list str) (cur : option str) : option str :=
  match lines with
  | [] => cur
  | line :: rest =>
      if truthyOpt cur then cur
      else if isHeaderText (toLowerCase line) then nameLines rest cur
      else if test re_anyDigit line then nameLines rest cur
      else if (length line <? 4) || (40 <? length line)
      then nameLines rest cur
      else nameLines rest
             (match namePatterns line patterns_name with
              | Some v => Some v
              | None => cur
              end)
  end.

(** [for (const nameMatch of nameMatches)] of the full-text pass. *)
Fixpoint firstValidName (nameMatches : list str) : option str :=
  match nameMatches with
  | [] => None
  | nameMatch :: rest =>
      if negb (isHeaderText (toLowerCase nameMatch))
         && (4 <=? length nameMatch) && (length nameMatch <=? 35)
      then Some nameMatch
      else firstValidName rest
  end.

Definition fullTextName (cleanedText : str) (cur : option str) : option str :=
  if negb (truthyOpt cur) then
    let fullText := replaceAll re_newline (lit " ") cleanedText in
    match matchG re_fullTextName fullText with
    | Some nameMatches =>
        match firstValidName nameMatches with
        | Some v => Some v
        | None => cur
        end
    | None => cur
    end
  else cur.

(** The line view of the cleaned text. *)
Definition linesOf (cleanedText : str) : list str :=
  filter (fun line => 2 <? length line)
    (map trim (splitBy (Ascii.eqb LF) cleanedText)).

Definition extractDataFromText (text : str) : completion ExtractedData :=
  let cleanedText := cleanOCRText text in
  let lines := linesOf cleanedText in
  bind (scanPatterns acceptAadhaar cleanedText patterns_aadhaarNumber None)
    (fun idNumber =>
  bind (scanPatterns acceptPhone cleanedText patterns_phoneNumber None)
    (fun phoneNumber =>
  bind (scanPatterns acceptDate cleanedText patterns_dateOfBirth None)
    (fun dateOfBirth =>
  let name := fullTextName cleanedText (nameLines lines None) in
  Normal (mkExtractedData name dateOfBirth idNumber phoneNumber)))).

(** The uploaded file, as far as [handleFileSelect] looks at it. *)
Module File.
Record t : Type := mk {
  type : str;
  size : N
}.
End File.

(** What an upload comes to: one of the four notices, or the call of
    [onDocumentProcessed] with the extracted data. *)
Inductive Outcome : Type :=
| InvalidFile
| FileTooLarge
| NoDataFound
| ProcessingError
| DocumentProcessed (extractedData : ExtractedData).

(** [Object.values(extractedData)]: the values of the fields that were
    assigned, in the order of their assignment. *)
Definition extractedValues (extractedData : ExtractedData) : list str :=
  flat_map (fun o : option str => match o with Some v => [v] | None => [] end)
    [ idNumber extractedData; phoneNumber extractedData;
      dateOfBirth extractedData; name extractedData ].

Definition hasData (extractedData : ExtractedData) : bool :=
  existsb (fun value => truthy value && (0 <? length value))
    (extractedValues extractedData).

(** [processDocument], given what [Tesseract.recognize] comes to: the text,
    or a rejection. Everything thrown inside [try] ends in the
    processing-error notice. *)
Definition processDocument (recognized : completion str) : Outcome :=
  match recognized with
  | Throw _ => ProcessingError
  | Normal text =>
      match extractDataFromText text with
      | Throw _ => ProcessingError
      | Normal extractedData =>
          if negb (hasData extractedData) then NoDataFound
          else DocumentProcessed extractedData
      end
  end.

Definition handleFileSelect (file : File.t) (recognized : completion str)
  : Outcome :=
  if negb (startsWith (File.type file) (lit "image/")) then InvalidFile
  else if (10 * 1024 * 1024 <? File.size file)%N then FileTooLarge
  else processDocument recognized.

End DocumentUpload.

(** ** IdVerificationForm: comparing entered and extracted values *)

Module IdVerificationForm.
Import JS.

Module FormData.
Record t : Type := mk {
  name : str;
  dateOfBirth : str;
  idNumber : str;
  phoneNumber : str
}.
End FormData.

Module VerificationResults.
Record t : Type := mk {
  name : bool;
  dateOfBirth : bool;
  idNumber : bool;
  phoneNumber : bool;
  overall : bool
}.
End VerificationResults.

(** [/[^a-z0-9]/g] and [/[^\d]/g] *)
Definition re_nonAlnum : RegExp :=
  mkRegExp (RClass (CNot (CUnion caz c09))) false true.
Definition re_nonDigit : RegExp := mkRegExp (RClass (CNot CDigit)) false true.

Definition normalizeText (text : str) : str :=
  replaceAll re_nonAlnum [] (toLowerCase text).

Definition normalizeDate (date : str) : str :=
  let cleaned := replaceAll re_nonDigit [] date in
  if length cleaned =? 8 then cleaned else cleaned.

Definition normalizePhone (phone : str) : str :=
  replaceAll re_nonDigit [] phone.

Definition compareFields (extracted : option str) (entered : str) : bool :=
  match extracted with
  | None => false
  | Some extracted =>
      if negb (truthy extracted) || negb (truthy entered) then false
      else if includes extracted (lit " ") || includes entered (lit " ") then
        let extractedNorm := normalizeText extracted in
        let enteredNorm := normalizeText entered in
        includes extractedNorm enteredNorm
        || includes enteredNorm extractedNorm
        || strEq extractedNorm enteredNorm
      else strEq (normalizeText extracted) (normalizeText entered)
  end.

Definition compareDates (extracted : option str) (entered : str) : bool :=
  match extracted with
  | None => false
  | Some extracted =>
      if negb (truthy extracted) || negb (truthy entered) then false
      else
        let extractedNorm := normalizeDate extracted in
        let enteredNorm := normalizeDate entered in
        strEq extractedNorm enteredNorm
  end.

Definition comparePhones (extracted : option str) (entered : str) : bool :=
  match extracted with
  | None => false
  | Some extracted =>
      if negb (truthy extracted) || negb (truthy entered) then false
      else
        let extractedNorm := normalizePhone extracted in
        let enteredNorm := normalizePhone entered in
        includes extractedNorm enteredNorm
        || includes enteredNorm extractedNorm
        || strEq extractedNorm enteredNorm
  end.

(** [Object.values(results)]: the values in the order of the keys. *)
Definition objectValues (results : VerificationResults.t) : list bool :=
  [ VerificationResults.name results;
    VerificationResults.dateOfBirth results;
    VerificationResults.idNumber results;
    VerificationResults.phoneNumber results;
    VerificationResults.overall results ].

(** [Array.prototype.filter] with the callback given element and index. *)
Fixpoint filterIndexed {A : Type} (p : A -> nat -> bool) (index : nat)
  (l : list A) : list A :=
  match l with
  | [] => []
  | x :: l' =>
      if p x index then x :: filterIndexed p (S index) l'
      else filterIndexed p (S index) l'
  end.

Definition matchCount (results : VerificationResults.t) : nat :=
  length
    (filterIndexed (fun (mt : bool) index => (index <? 4) && mt) 0
       (objectValues results)).

(** [results.overall = matchCount >= 3] *)
Definition setOverall (results : VerificationResults.t)
  : VerificationResults.t :=
  VerificationResults.mk
    (VerificationResults.name results)
    (VerificationResults.dateOfBirth results)
    (VerificationResults.idNumber results)
    (VerificationResults.phoneNumber results)
    (3 <=? matchCount results).

(** The verdict computed by [handleVerify] from the state of the form. *)
Definition handleVerify (extractedData : DocumentUpload.ExtractedData)
  (formData : FormData.t) : VerificationResults.t :=
  let results :=
    VerificationResults.mk
      (compareFields (DocumentUpload.name extractedData)
         (FormData.name formData))
      (compareDates (DocumentUpload.dateOfBirth extractedData)
         (FormData.dateOfBirth formData))
      (compareFields (DocumentUpload.idNumber extractedData)
         (FormData.idNumber formData))
      (comparePhones (DocumentUpload.phoneNumber extractedData)
         (FormData.phoneNumber formData))
      false in
  setOverall results.

End IdVerificationForm.

(** ** VerificationResult: the summary shown for a verdict *)

Module VerificationResult.
Import JS.

Inductive StatusColor : Type := success | warning | destructive.

Definition matchCount (results : IdVerificationForm.VerificationResults.t)
  : nat :=
  length
    (IdVerificationForm.filterIndexed
       (fun (mt : bool) index => (index <? 4) && mt) 0
       (IdVerificationForm.objectValues results)).

Definition getOverallStatusColor
  (results : IdVerificationForm.VerificationResults.t) : StatusColor :=
  if IdVerificationForm.VerificationResults.overall results then success
  else if 2 <=? matchCount results then warning
  else destructive.

End VerificationResult.

(** ** Specification vocabulary *)

Module Spec.
Import JS.

(** [Iter M pre ws post]: the words [ws] are matched one after the other by
    [M], each in its context: what was read before it and what follows. *)
Fixpoint Iter (M : str -> str -> str -> Prop) (pre : str) (ws : list str)
  (post : str) : Prop :=
  match ws with
  | [] => True
  | w :: ws' => M pre w (concat ws' ++ post) /\ Iter M (rev w ++ pre) ws' post
  end.

(** [Matches ic r pre w post]: the regex [r] matches the word [w] when [w]
    stands between [pre] (last character first) and [post]. *)
Fixpoint Matches (ic : bool) (r : regex) (pre w post : str) : Prop :=
  match r with
  | RClass cls => exists c, w = [c] /\ cmem ic cls c = true
  | REmpty => w = []
  | RSeq r1 r2 =>
      exists w1 w2, w = w1 ++ w2 /\
        Matches ic r1 pre w1 (w2 ++ post) /\
        Matches ic r2 (rev w1 ++ pre) w2 post
  | RAlt r1 r2 => Matches ic r1 pre w post \/ Matches ic r2 pre w post
  | RRep lo hi r' =>
      exists ws, w = concat ws /\ lo <= length ws /\
        match hi with
        | Some h => length ws <= Nat.max lo h
        | None => True
        end /\
        Iter (Matches ic r') pre ws post
  | RGroup r' => Matches ic r' pre w post
  | RBol => w = [] /\ pre = []
  | REol => w = [] /\ post = []
  | RWordB => w = [] /\ xorb (headIsWord pre) (headIsWord post) = true
  end.

(** [t] occurs in [s]. *)
Definition Substring (t s : str) : Prop :=
  exists a b, s = a ++ t ++ b.

(** The only white space of [s] is the plain space. *)
Definition PlainSpaces (s : str) : Prop :=
  forall c, In c s -> isSpace c = true -> c = " "%char.

(** An upper-case letter followed by one or more lower-case letters. *)
Definition ProperWord (w : str) : Prop :=
  exists c cs, w = c :: cs /\ isUpper c = true /\ cs <> [] /\
    Forall (fun x => isLower x = true) cs.

(** [SpacedWords n s]: [s] is [n] proper words, with one white-space
    character between a word and the next. *)
Inductive SpacedWords : nat -> str -> Prop :=
| SW_one w : ProperWord w -> SpacedWords 1 w
| SW_more w c n rest :
    ProperWord w -> isSpace c = true -> SpacedWords n rest ->
    SpacedWords (S n) (w ++ c :: rest).

(** A letter of [A-Z] or [a-z], or the plain space. *)
Definition isLetterOrSpace (c : ascii) : bool :=
  isUpper c || isLower c || Ascii.eqb c " ".

Fixpoint joinWith (sep : str) (ws : list str) : str :=
  match ws with
  | [] => []
  | [w] => w
  | w :: ws' => w ++ sep ++ joinWith sep ws'
  end.

(** A name of two to four proper words separated by single plain spaces,
    of at most 35 characters, all of them letters or plain spaces. *)
Definition WellFormedName (n : str) : Prop :=
  (exists ws, 2 <= length ws /\ length ws <= 4 /\ Forall ProperWord ws /\
     n = joinWith (lit " ") ws) /\
  length n <= 35 /\
  Forall (fun c => isLetterOrSpace c = true) n.

Definition countTrue (flags : list bool) : nat :=
  length (filter (fun b => b) flags).

(** A letter of [A-Z] or [a-z], or a digit. *)
Definition isAlnum (c : ascii) : bool := isUpper c || isLower c || isDigit c.

(** Lower-casing, then removing every non-alphanumeric character. *)
Definition lowerAlnum (s : str) : str := filter isAlnum (toLowerCase s).

(** Removing every non-digit character. *)
Definition digitsOf (s : str) : str := filter isDigit s.

(** The fields of the form, and the comparator [handleVerify] uses for
    each. *)
Inductive FieldName : Type := Name | DateOfBirth | IdNumber | PhoneNumber.

Definition compare (f : FieldName) : option str -> str -> bool :=
  match f with
  | Name => IdVerificationForm.compareFields
  | DateOfBirth => IdVerificationForm.compareDates
  | IdNumber => IdVerificationForm.compareFields
  | PhoneNumber => IdVerificationForm.comparePhones
  end.

(** The first defined value of a list of optional values. *)
Fixpoint firstSome (l : list (option str)) : option str :=
  match l with
  | [] => None
  | Some v :: _ => Some v
  | None :: l' => firstSome l'
  end.

(** A string without its white space and its dashes. *)
Definition stripSpaceDash (g : str) : str :=
  filter (fun c => negb (isSpace c || Ascii.eqb "-" c)) g.

(** Ten decimal digits, the first of them between 6 and 9. *)
Definition MobileNumber (v : str) : Prop :=
  length v = 10 /\ Forall (fun c => isDigit c = true) v /\
  exists c rest, v = c :: rest /\ inRange 54 57 c = true.

(** A date as returned by the extractor: day and month of one or two
    digits, a year of four digits between 1900 and 2010, and the same
    separator twice. *)
Definition DateShape (v : str) : Prop :=
  exists d mo y sep,
    v = d ++ sep :: mo ++ sep :: y /\
    (sep = "/"%char \/ sep = "-"%char) /\
    1 <= length d <= 2 /\ 1 <= length mo <= 2 /\ length y = 4 /\
    Forall (fun c => isDigit c = true) (d ++ mo ++ y) /\
    1900 <= digitsValue 0 y <= 2010.

(** The value of an [<input type="date">]: [YYYY-MM-DD] with a month between
    01 and 12. *)
Definition IsoDate (entered : str) : Prop :=
  exists y mo d,
    entered = y ++ "-"%char :: mo ++ "-"%char :: d /\
    length y = 4 /\ length mo = 2 /\ length d = 2 /\
    Forall (fun c => isDigit c = true) (y ++ mo ++ d) /\
    1 <= digitsValue 0 mo <= 12.

(** A proper word of at least three letters. *)
Definition LongProperWord (w : str) : Prop := ProperWord w /\ 3 <= length w.

(** [NoSpaceRun prev s]: no two plain spaces in a row in [s], and none at
    its start when [prev] says that a space stands before it. *)
Fixpoint NoSpaceRun (prev : bool) (s : str) : Prop :=
  match s with
  | [] => True
  | c :: s' =>
      if Ascii.eqb c " " then prev = false /\ NoSpaceRun true s'
      else NoSpaceRun false s'
  end.

(** Every run of white space replaced by one plain space; [inRun] says
    that the run has begun before [s]. *)
Fixpoint collapseFrom (inRun : bool) (s : str) : str :=
  match s with
  | [] => []
  | c :: s' =>
      if isSpace c then
        (if inRun then [] else [" "%char]) ++ collapseFrom true s'
      else c :: collapseFrom false s'
  end.

End Spec.

Import JS DocumentUpload IdVerificationForm Spec.

(** ** The matcher is sound for [Matches] *)

Section MatcherSound.

Variable ic : bool.

(** The capture a continuation sees is the one it started with, or text of
    the input that was still to read. *)
Definition capFrom (st : mstate) (cp : option str) : Prop :=
  cp = cap1 st \/ exists c, cp = Some c /\ incl c (after st).

(** What a sound matcher for [M] guarantees on success. *)
Definition SoundFor (M : str -> str -> str -> Prop) (body : cont -> cont)
  : Prop :=
  forall k st res, body k st = Some res ->
    exists w post cp,
      after st = w ++ post /\ M (before st) w post /\
      k (MState (rev w ++ before st) post cp) = Some res /\ capFrom st cp.

Lemma incl_firstn (n : nat) (l : str) : incl (firstn n l) l.
Proof.
  intros x Hx. rewrite <- (firstn_skipn n l). apply in_or_app. left. exact Hx.
Qed.

Lemma mstate_eta st : MState (before st) (after st) (cap1 st) = st.
Proof. destruct st; reflexivity. Qed.

Lemma capFrom_refl st : capFrom st (cap1 st).
Proof. left; reflexivity. Qed.

Lemma capFrom_trans st w post cp cp' :
  after st = w ++ post ->
  capFrom st cp ->
  capFrom (MState (rev w ++ before st) post cp) cp' ->
  capFrom st cp'.
Proof.
  intros Hst H1 [H2 | (c & Hc & Hin)]; simpl in *.
  - subst cp'. exact H1.
  - right. exists c. split; [exact Hc|].
    rewrite Hst. apply incl_appr. exact Hin.
Qed.

Lemma Iter_app M pre ws1 ws2 post :
  Iter M pre ws1 (concat ws2 ++ post) ->
  Iter M (rev (concat ws1) ++ pre) ws2 post ->
  Iter M pre (ws1 ++ ws2) post.
Proof.
  revert pre. induction ws1 as [|w ws1 IH]; intros pre H1 H2; simpl in *.
  - exact H2.
  - destruct H1 as [Hw H1]. split.
    + rewrite concat_app, <- app_assoc. exact Hw.
    + apply IH; [exact H1|].
      rewrite rev_app_distr, <- app_assoc in H2. exact H2.
Qed.

Section Repeat.

Variable M : str -> str -> str -> Prop.
Variable body : cont -> cont.
Hypothesis body_sound : SoundFor M body.

Lemma repOpt_sound k e st res :
  repOpt body k e st = Some res ->
  exists ws post cp,
    after st = concat ws ++ post /\ length ws <= e /\
    Iter M (before st) ws post /\
    k (MState (rev (concat ws) ++ before st) post cp) = Some res /\
    capFrom st cp.
Proof.
  revert st. induction e as [|e IH]; intros st H; simpl in H.
  - exists [], (after st), (cap1 st). simpl.
    rewrite mstate_eta. repeat split; auto using capFrom_refl.
  - destruct (body _ st) as [res'|] eqn:Hb.
    + injection H as ->.
      apply body_sound in Hb.
      destruct Hb as (w & post & cp & Hst & Hw & Hk & Hcp).
      simpl in Hk.
      destruct (length post =? length (after st)); [discriminate|].
      apply IH in Hk. simpl in Hk.
      destruct Hk as (ws & post' & cp' & Hpost & Hlen & Hit & Hk & Hcp').
      exists (w :: ws), post', cp'. simpl.
      repeat split.
      * rewrite Hst, Hpost, app_assoc. reflexivity.
      * lia.
      * rewrite <- Hpost. exact Hw.
      * exact Hit.
      * rewrite rev_app_distr, <- app_assoc. exact Hk.
      * eapply capFrom_trans; eauto.
    + exists [], (after st), (cap1 st). simpl.
      rewrite mstate_eta. repeat split; auto using capFrom_refl. lia.
Qed.

Lemma repReq_sound k n st res :
  repReq body k n st = Some res ->
  exists ws post cp,
    after st = concat ws ++ post /\ length ws = n /\
    Iter M (before st) ws post /\
    k (MState (rev (concat ws) ++ before st) post cp) = Some res /\
    capFrom st cp.
Proof.
  revert st. induction n as [|n IH]; intros st H; simpl in H.
  - exists [], (after st), (cap1 st). simpl.
    rewrite mstate_eta. repeat split; auto using capFrom_refl.
  - apply body_sound in H.
    destruct H as (w & post & cp & Hst & Hw & Hk & Hcp).
    apply IH in Hk. simpl in Hk.
    destruct Hk as (ws & post' & cp' & Hpost & Hlen & Hit & Hk & Hcp').
    exists (w :: ws), post', cp'. simpl.
    repeat split.
    + rewrite Hst, Hpost, app_assoc. reflexivity.
    + lia.
    + rewrite <- Hpost. exact Hw.
    + exact Hit.
    + rewrite rev_app_distr, <- app_assoc. exact Hk.
    + eapply capFrom_trans; eauto.
Qed.

End Repeat.

Lemma m_sound r : SoundFor (Matches ic r) (m ic r).
Proof.
  induction r as [cls| |r1 IH1 r2 IH2|r1 IH1 r2 IH2|lo hi r IH|r IH| | |];
    intros k st res H; simpl in H.
  - (* RClass *)
    destruct (after st) as [|c rest] eqn:Ha; [discriminate|].
    destruct (cmem ic cls c) eqn:Hc; [|discriminate].
    exists [c], rest, (cap1 st). simpl.
    repeat split; eauto using capFrom_refl.
  - (* REmpty *)
    exists [], (after st), (cap1 st). simpl.
    rewrite mstate_eta. repeat split; auto using capFrom_refl.
  - (* RSeq *)
    apply IH1 in H. destruct H as (w1 & post1 & cp1 & Hst & Hw1 & Hk & Hcp1).
    apply IH2 in Hk. simpl in Hk.
    destruct Hk as (w2 & post & cp & Hpost & Hw2 & Hk & Hcp).
    exists (w1 ++ w2), post, cp. simpl. repeat split.
    + rewrite Hst, Hpost, app_assoc. reflexivity.
    + exists w1, w2. rewrite <- Hpost. auto.
    + rewrite rev_app_distr, <- app_assoc. exact Hk.
    + eapply capFrom_trans; eauto.
  - (* RAlt *)
    destruct (m ic r1 k st) as [res'|] eqn:H1.
    + injection H as ->. apply IH1 in H1.
      destruct H1 as (w & post & cp & ? & ? & ? & ?).
      exists w, post, cp. simpl. auto.
    + apply IH2 in H.
      destruct H as (w & post & cp & ? & ? & ? & ?).
      exists w, post, cp. simpl. auto.
  - (* RRep *)
    apply (repReq_sound _ _ IH) in H.
    destruct H as (ws1 & post1 & cp1 & Hst & Hlen1 & Hit1 & Hk & Hcp1).
    apply (repOpt_sound _ _ IH) in Hk. simpl in Hk.
    destruct Hk as (ws2 & post & cp & Hpost & Hlen2 & Hit2 & Hk & Hcp).
    exists (concat (ws1 ++ ws2)), post, cp. repeat split.
    + rewrite Hst, Hpost, concat_app, app_assoc. reflexivity.
    + exists (ws1 ++ ws2). rewrite length_app. repeat split.
      * lia.
      * destruct hi as [h|]; [lia|exact I].
      * apply Iter_app; [rewrite <- Hpost|]; assumption.
    + rewrite concat_app, rev_app_distr, <- app_assoc. exact Hk.
    + eapply capFrom_trans; eauto.
  - (* RGroup *)
    apply IH in H. destruct H as (w & post & cp & Hst & Hw & Hk & Hcp).
    simpl in Hk.
    eexists w, post, _. repeat split; eauto.
    right. eexists. split; [reflexivity|].
    apply incl_firstn.
  - (* RBol *)
    destruct (before st) eqn:Hb; [|discriminate].
    exists [], (after st), (cap1 st). simpl.
    rewrite <- Hb, mstate_eta. repeat split; auto using capFrom_refl.
  - (* REol *)
    destruct (after st) eqn:Ha; [|discriminate].
    exists [], [], (cap1 st). simpl.
    rewrite <- Ha, mstate_eta. repeat split; auto using capFrom_refl.
  - (* RWordB *)
    destruct (xorb _ _) eqn:Hx; [|discriminate].
    exists [], (after st), (cap1 st). simpl.
    rewrite mstate_eta. repeat split; auto using capFrom_refl.
Qed.

End MatcherSound.

(** ** Matches found by [matchAt], [search], [test] and [matchesFrom] *)

Lemma firstn_app_exact (w post : str) :
  firstn (length (w ++ post) - length post) (w ++ post) = w.
Proof.
  rewrite length_app, Nat.add_sub.
  rewrite firstn_app, Nat.sub_diag, firstn_all. simpl. apply app_nil_r.
Qed.

Lemma matchAt_sound re pre suf x :
  matchAt re pre suf = Some x ->
  exists post,
    suf = m0 x ++ post /\
    Matches (ignoreCase re) (source re) pre (m0 x) post /\
    (forall g, m1 x = Some g -> incl g suf).
Proof.
  unfold matchAt. intros H.
  destruct (m _ _ _ _) as [st'|] eqn:Hm; [|discriminate].
  injection H as <-.
  apply m_sound in Hm. simpl in Hm.
  destruct Hm as (w & post & cp & Hsuf & Hw & Hk & Hcp).
  injection Hk as <-. simpl.
  subst suf. rewrite firstn_app_exact.
  exists post. repeat split; [exact Hw|].
  intros g Hg. destruct Hcp as [Hcp | (c & Hc & Hin)]; simpl in *.
  - rewrite Hcp in Hg. discriminate.
  - rewrite Hc in Hg. injection Hg as <-. exact Hin.
Qed.

Lemma search_sound re pre suf x :
  search re pre suf = Some x ->
  exists a post,
    suf = a ++ m0 x ++ post /\
    Matches (ignoreCase re) (source re) (rev a ++ pre) (m0 x) post /\
    (forall g, m1 x = Some g -> incl g suf).
Proof.
  revert pre. induction suf as [|c suf IH]; intros pre H; simpl in H.
  - destruct (matchAt re pre []) eqn:Hm; [|discriminate].
    injection H as ->. apply matchAt_sound in Hm.
    destruct Hm as (post & ? & ? & ?). exists [], post. auto.
  - destruct (matchAt re pre (c :: suf)) eqn:Hm.
    + injection H as ->. apply matchAt_sound in Hm.
      destruct Hm as (post & ? & ? & ?). exists [], post. auto.
    + apply IH in H. destruct H as (a & post & Hs & Hw & Hg).
      exists (c :: a), post. simpl. repeat split.
      * rewrite Hs. reflexivity.
      * rewrite <- app_assoc. exact Hw.
      * intros g Hx. apply incl_tl. auto.
Qed.

Lemma test_sound re s :
  test re s = true ->
  exists a w post,
    s = a ++ w ++ post /\
    Matches (ignoreCase re) (source re) (rev a) w post.
Proof.
  unfold test, exec. destruct (search re [] s) as [x|] eqn:H; [|discriminate].
  intros _. apply search_sound in H.
  destruct H as (a & post & Hs & Hw & _).
  rewrite app_nil_r in Hw. eauto.
Qed.

Lemma matchesFrom_sound re x : forall suf skip pre,
  In x (matchesFrom re skip pre suf) ->
  exists a post,
    suf = a ++ m0 x ++ post /\
    Matches (ignoreCase re) (source re) (rev a ++ pre) (m0 x) post /\
    (forall g, m1 x = Some g -> incl g suf).
Proof.
  assert (Hhere : forall pre suf, matchAt re pre suf = Some x ->
            exists a post, suf = a ++ m0 x ++ post /\
              Matches (ignoreCase re) (source re) (rev a ++ pre) (m0 x) post /\
              (forall g, m1 x = Some g -> incl g suf)).
  { intros pre suf Hm. apply matchAt_sound in Hm.
    destruct Hm as (post & ? & ? & ?). exists [], post. auto. }
  assert (Hnext : forall c suf pre,
            (exists a post, suf = a ++ m0 x ++ post /\
              Matches (ignoreCase re) (source re) (rev a ++ c :: pre) (m0 x) post /\
              (forall g, m1 x = Some g -> incl g suf)) ->
            exists a post, c :: suf = a ++ m0 x ++ post /\
              Matches (ignoreCase re) (source re) (rev a ++ pre) (m0 x) post /\
              (forall g, m1 x = Some g -> incl g (c :: suf))).
  { intros c suf pre (a & post & Hs & Hw & Hg).
    exists (c :: a), post. simpl. repeat split.
    - rewrite Hs. reflexivity.
    - rewrite <- app_assoc. exact Hw.
    - intros g Hx. apply incl_tl. auto. }
  induction suf as [|c suf IH]; intros skip pre H; simpl in H.
  - destruct (if skip =? 0 then matchAt re pre [] else None) as [y|] eqn:Hm.
    + destruct H as [->|[]].
      destruct (skip =? 0); [|discriminate]. auto.
    + destruct H.
  - destruct (if skip =? 0 then matchAt re pre (c :: suf) else None)
      as [y|] eqn:Hm.
    + destruct H as [->|H].
      * destruct (skip =? 0); [|discriminate]. auto.
      * apply Hnext. eapply IH. exact H.
    + apply Hnext. eapply IH. exact H.
Qed.

(** A regex that is one character class matches one character. *)
Lemma matchAt_class cls i g pre c suf :
  matchAt (mkRegExp (RClass cls) i g) pre (c :: suf) =
  if cmem i cls c then Some (mkMatch [c] None) else None.
Proof.
  unfold matchAt. cbn [m source ignoreCase after before cap1].
  destruct (cmem i cls c); [|reflexivity].
  cbn [after cap1]. f_equal. f_equal.
  change (c :: suf) with ([c] ++ suf). apply firstn_app_exact.
Qed.

Lemma replaceFrom_class cls i g rep : forall suf pre,
  replaceFrom (mkRegExp (RClass cls) i g) rep 0 pre suf =
  flat_map (fun c => if cmem i cls c then rep else [c]) suf.
Proof.
  induction suf as [|c suf IH]; intros pre.
  - reflexivity.
  - cbn [replaceFrom flat_map Nat.eqb]. rewrite matchAt_class.
    destruct (cmem i cls c); cbn [m0 length Nat.eqb Nat.sub app].
    + rewrite IH. reflexivity.
    + rewrite IH. reflexivity.
Qed.

Lemma replaceAll_class_nil cls i g s :
  replaceAll (mkRegExp (RClass cls) i g) [] s =
  filter (fun c => negb (cmem i cls c)) s.
Proof.
  unfold replaceAll. rewrite replaceFrom_class.
  induction s as [|c s IH]; simpl; [reflexivity|].
  destruct (cmem i cls c); simpl; rewrite IH; reflexivity.
Qed.

(** ** Strings: equality, containment, normal forms *)

Lemma strEq_true_iff (a b : str) : strEq a b = true <-> a = b.
Proof.
  unfold strEq. destruct (list_eq_dec ascii_dec a b); split;
    intros; try assumption; try reflexivity; try discriminate; contradiction.
Qed.

Lemma strEq_sym (a b : str) : strEq a b = strEq b a.
Proof.
  unfold strEq.
  destruct (list_eq_dec ascii_dec a b), (list_eq_dec ascii_dec b a);
    try reflexivity; subst; contradiction.
Qed.

Lemma startsWith_spec (t : str) : forall s,
  startsWith s t = true <-> exists b, s = t ++ b.
Proof.
  induction t as [|y t IH]; intros s; simpl.
  - split; [intros _; exists s; reflexivity | reflexivity].
  - destruct s as [|x s].
    + split; [discriminate | intros (b & Hb); discriminate].
    + rewrite andb_true_iff, Ascii.eqb_eq, IH. split.
      * intros (-> & b & ->). exists b. reflexivity.
      * intros (b & Hb). injection Hb as -> ->. eauto.
Qed.

Lemma includes_spec (t : str) : forall s,
  includes s t = true <-> Substring t s.
Proof.
  unfold Substring.
  induction s as [|c s IH]; simpl; rewrite orb_true_iff, startsWith_spec.
  - split.
    + intros [(b & Hb) | H]; [exists [], b; exact Hb | discriminate].
    + intros (a & b & H). left.
      destruct a; [exists b; exact H | discriminate].
  - rewrite IH. split.
    + intros [(b & Hb) | (a & b & Hb)].
      * exists [], b. exact Hb.
      * exists (c :: a), b. rewrite Hb. reflexivity.
    + intros (a & b & H). destruct a as [|x a]; simpl in H.
      * left. eauto.
      * right. injection H as _ ->. eauto.
Qed.

Lemma includes_char (c : ascii) (s : str) :
  includes s [c] = true <-> In c s.
Proof.
  rewrite includes_spec. unfold Substring. split.
  - intros (a & b & ->). apply in_elt.
  - intros H. apply in_split in H. destruct H as (a & b & ->).
    exists a, b. reflexivity.
Qed.

Lemma toLowerChar_not_upper (c : ascii) : isUpper (toLowerChar c) = false.
Proof.
  destruct c as [[] [] [] [] [] [] [] []]; reflexivity.
Qed.

Lemma normalizeText_spec (text : str) : normalizeText text = lowerAlnum text.
Proof.
  unfold normalizeText, lowerAlnum, re_nonAlnum.
  rewrite replaceAll_class_nil.
  apply filter_ext_in. intros c Hc.
  apply in_map_iff in Hc. destruct Hc as (c0 & <- & _).
  cbn [cmem]. rewrite negb_involutive. unfold isAlnum.
  rewrite toLowerChar_not_upper. reflexivity.
Qed.

Lemma replace_nonDigit (s : str) : replaceAll re_nonDigit [] s = digitsOf s.
Proof.
  unfold re_nonDigit, digitsOf. rewrite replaceAll_class_nil.
  apply filter_ext. intros c. simpl. apply negb_involutive.
Qed.

Lemma normalizeDate_spec (date : str) : normalizeDate date = digitsOf date.
Proof.
  unfold normalizeDate. rewrite replace_nonDigit.
  destruct (length (digitsOf date) =? 8); reflexivity.
Qed.

Lemma normalizePhone_spec (phone : str) : normalizePhone phone = digitsOf phone.
Proof. apply replace_nonDigit. Qed.

(** ** The comparators *)

(** C1, as amended: with both sides non-empty, [compareFields] holds exactly
    when the lower-cased, alphanumeric-only forms are equal, or when one of
    the raw strings contains a space and one form occurs in the other. *)
Theorem compareFields_spec (extracted entered : str) :
  truthy extracted = true -> truthy entered = true ->
  (compareFields (Some extracted) entered = true <->
   lowerAlnum extracted = lowerAlnum entered \/
   ((In " "%char extracted \/ In " "%char entered) /\
    (Substring (lowerAlnum extracted) (lowerAlnum entered) \/
     Substring (lowerAlnum entered) (lowerAlnum extracted)))).
Proof.
  intros He Hn. unfold compareFields. rewrite He, Hn. cbn [negb orb].
  rewrite !normalizeText_spec.
  set (x := lowerAlnum extracted). set (y := lowerAlnum entered).
  destruct (includes extracted (lit " ") || includes entered (lit " "))
    eqn:Hsp.
  - apply orb_true_iff in Hsp. change (lit " ") with [" "%char] in Hsp.
    rewrite !includes_char in Hsp.
    rewrite !orb_true_iff, !includes_spec, strEq_true_iff. tauto.
  - apply orb_false_iff in Hsp. destruct Hsp as [H1 H2].
    change (lit " ") with [" "%char] in H1, H2.
    rewrite strEq_true_iff. split; [auto|].
    intros [H | [[H | H] _]]; [exact H | |].
    + apply includes_char in H. congruence.
    + apply includes_char in H. congruence.
Qed.

Lemma compareFields_spec_witness :
  compareFields (Some (lit "Ravi Kumar")) (lit "ravi kumar sharma") = true <->
  lowerAlnum (lit "Ravi Kumar") = lowerAlnum (lit "ravi kumar sharma") \/
  ((In " "%char (lit "Ravi Kumar") \/ In " "%char (lit "ravi kumar sharma")) /\
   (Substring (lowerAlnum (lit "Ravi Kumar"))
      (lowerAlnum (lit "ravi kumar sharma")) \/
    Substring (lowerAlnum (lit "ravi kumar sharma"))
      (lowerAlnum (lit "Ravi Kumar")))).
Proof.
  apply (compareFields_spec (lit "Ravi Kumar") (lit "ravi kumar sharma"));
    reflexivity.
Defined.

(** Scenarios A and B of the specification. *)
Example compareFields_scenario_A :
  compareFields (Some (lit "123412341234")) (lit "123412341234") = true.
Proof. vm_compute. reflexivity. Qed.

Example compareFields_scenario_B :
  compareFields (Some (lit "Ravi Kumar")) (lit "ravi kumar sharma") = true.
Proof. vm_compute. reflexivity. Qed.

(** C1 as stated fails when neither raw string has a space: the entered
    "Ravi" occurs in the extracted "RaviKumar" after normalization, and the
    comparator answers false. *)
Lemma compareFields_containment_counterexample :
  truthy (lit "RaviKumar") = true /\ truthy (lit "Ravi") = true /\
  Substring (lowerAlnum (lit "Ravi")) (lowerAlnum (lit "RaviKumar")) /\
  compareFields (Some (lit "RaviKumar")) (lit "Ravi") = false.
Proof.
  repeat split.
  exists [], (lit "kumar"). reflexivity.
Qed.

(** C4: with both sides non-empty, [compareDates] holds exactly when the two
    strings are equal once every non-digit character is removed; nothing is
    tolerated beyond that equality and no component is reordered. *)
Theorem compareDates_spec (extracted entered : str) :
  truthy extracted = true -> truthy entered = true ->
  (compareDates (Some extracted) entered = true <->
   digitsOf extracted = digitsOf entered).
Proof.
  intros He Hn. unfold compareDates. rewrite He, Hn. cbn [negb orb].
  rewrite !normalizeDate_spec. apply strEq_true_iff.
Qed.

Lemma compareDates_spec_witness :
  compareDates (Some (lit "01/02/2000")) (lit "02/01/2000") = true <->
  digitsOf (lit "01/02/2000") = digitsOf (lit "02/01/2000").
Proof.
  apply (compareDates_spec (lit "01/02/2000") (lit "02/01/2000"));
    reflexivity.
Defined.

(** The example of the specification: day and month exchanged. *)
Example compareDates_day_month_swapped :
  digitsOf (lit "01/02/2000") = lit "01022000" /\
  digitsOf (lit "02/01/2000") = lit "02012000" /\
  compareDates (Some (lit "01/02/2000")) (lit "02/01/2000") = false.
Proof. repeat split. Qed.

Lemma includes_nil (s : str) : includes s [] = true.
Proof. destruct s; reflexivity. Qed.

(** C5, the behaviour of the code: an entered phone value without any digit
    matches every non-empty extracted value, because the empty digit string
    is contained in every string. *)
Theorem comparePhones_digitless_entered (extracted entered : str) :
  truthy extracted = true -> truthy entered = true ->
  digitsOf entered = [] ->
  comparePhones (Some extracted) entered = true.
Proof.
  intros He Hn Hd. unfold comparePhones. rewrite He, Hn. cbn [negb orb].
  rewrite !normalizePhone_spec, Hd, includes_nil. reflexivity.
Qed.

Lemma comparePhones_digitless_entered_witness :
  comparePhones (Some (lit "9876543210")) (lit "abc") = true.
Proof.
  apply (comparePhones_digitless_entered (lit "9876543210") (lit "abc"));
    reflexivity.
Defined.

(** Scenario C of the specification. *)
Example comparePhones_scenario_C :
  comparePhones (Some (lit "9876543210")) (lit "+919876543210") = true.
Proof. vm_compute. reflexivity. Qed.

(** C6: no field matches when the extracted value is absent, or when the
    entered value is the empty string. *)
Theorem compare_missing_is_false (f : FieldName) :
  (forall entered, compare f None entered = false) /\
  (forall extracted, compare f extracted [] = false).
Proof.
  split.
  - intros entered. destruct f; reflexivity.
  - intros [extracted|]; destruct f; simpl;
      unfold compareFields, compareDates, comparePhones; simpl;
      try rewrite orb_true_r; reflexivity.
Qed.

(** C7: the comparator of the generic text fields, name and ID number, gives
    the same answer when its two arguments are exchanged. *)
Theorem compareFields_symmetric (a b : str) :
  compare Name (Some a) b = compare Name (Some b) a /\
  compare IdNumber (Some a) b = compare IdNumber (Some b) a.
Proof.
  assert (H : compareFields (Some a) b = compareFields (Some b) a).
  { unfold compareFields.
    rewrite (orb_comm (negb (truthy a))).
    rewrite (orb_comm (includes a (lit " "))).
    rewrite (strEq_sym (normalizeText a)).
    rewrite (orb_comm (includes (normalizeText a) (normalizeText b))).
    reflexivity. }
  split; exact H.
Qed.

(** ** The verdict *)

(** C2: the overall flag is true exactly when three or four of the per-field
    flags are true, it is false for zero, one or two, and the verdict of
    [handleVerify] is that function of its own four flags. *)
Theorem overall_threshold :
  (forall n d i p : bool,
     let r := setOverall (VerificationResults.mk n d i p false) in
     VerificationResults.name r = n /\
     VerificationResults.dateOfBirth r = d /\
     VerificationResults.idNumber r = i /\
     VerificationResults.phoneNumber r = p /\
     (VerificationResults.overall r = true <->
      countTrue [n; d; i; p] = 3 \/ countTrue [n; d; i; p] = 4) /\
     (VerificationResults.overall r = false <->
      countTrue [n; d; i; p] = 0 \/ countTrue [n; d; i; p] = 1 \/
      countTrue [n; d; i; p] = 2)) /\
  (forall extractedData formData,
     let r := handleVerify extractedData formData in
     VerificationResults.overall r =
     (3 <=? countTrue [VerificationResults.name r;
                       VerificationResults.dateOfBirth r;
                       VerificationResults.idNumber r;
                       VerificationResults.phoneNumber r])).
Proof.
  split.
  - intros n d i p.
    destruct n, d, i, p; cbv; repeat split; intros; auto;
      try discriminate;
      repeat match goal with
             | H : _ \/ _ |- _ => destruct H
             end; discriminate.
  - intros extractedData formData r. subst r. unfold handleVerify.
    destruct (compareFields (name extractedData) _),
      (compareDates _ _), (compareFields (idNumber extractedData) _),
      (comparePhones _ _); reflexivity.
Qed.

(** ** Shapes of the words a regex matches *)

Lemma Iter_class ic cls : forall ws pre post,
  Iter (Matches ic (RClass cls)) pre ws post ->
  length (concat ws) = length ws /\
  Forall (fun c => cmem ic cls c = true) (concat ws).
Proof.
  induction ws as [|w ws IH]; intros pre post H; simpl in *.
  - split; [reflexivity | constructor].
  - destruct H as [(c & -> & Hc) H]. apply IH in H. destruct H as [Hl Hf].
    simpl. split; [lia | constructor; assumption].
Qed.

Lemma Matches_rep_class ic lo hi cls pre w post :
  Matches ic (RRep lo hi (RClass cls)) pre w post ->
  lo <= length w /\
  match hi with Some h => length w <= Nat.max lo h | None => True end /\
  Forall (fun c => cmem ic cls c = true) w.
Proof.
  intros (ws & -> & Hlo & Hhi & Hit).
  apply Iter_class in Hit. destruct Hit as [Hl Hf].
  rewrite Hl. auto.
Qed.

(** ** Characters of a replaced text *)

Lemma replaceFrom_In re rep c : forall suf skip pre,
  In c (replaceFrom re rep skip pre suf) ->
  (In c rep /\
   exists a suf' x, suf = a ++ suf' /\ matchAt re (rev a ++ pre) suf' = Some x)
  \/
  (exists a suf', suf = a ++ c :: suf' /\
     forall x, matchAt re (rev a ++ pre) (c :: suf') = Some x -> m0 x = []).
Proof.
  assert (Hshift : forall c0 suf pre,
    ((In c rep /\
      exists a suf' x, suf = a ++ suf' /\
        matchAt re (rev a ++ c0 :: pre) suf' = Some x)
     \/
     (exists a suf', suf = a ++ c :: suf' /\
        forall x, matchAt re (rev a ++ c0 :: pre) (c :: suf') = Some x ->
                  m0 x = [])) ->
    (In c rep /\
     exists a suf' x, c0 :: suf = a ++ suf' /\
       matchAt re (rev a ++ pre) suf' = Some x)
    \/
    (exists a suf', c0 :: suf = a ++ c :: suf' /\
       forall x, matchAt re (rev a ++ pre) (c :: suf') = Some x -> m0 x = [])).
  { intros c0 suf pre [(Hr & a & suf' & x & -> & Hm) | (a & suf' & -> & Hm)].
    - left. split; [exact Hr|]. exists (c0 :: a), suf', x.
      simpl. rewrite <- app_assoc. auto.
    - right. exists (c0 :: a), suf'. simpl. rewrite <- app_assoc. auto. }
  induction suf as [|c0 suf IH]; intros skip pre H; simpl in H.
  - destruct (skip =? 0); [|destruct H].
    destruct (matchAt re pre []) as [x|] eqn:Hm; [|destruct H].
    rewrite app_nil_r in H. left. split; [exact H|].
    exists [], [], x. auto.
  - destruct (if skip =? 0 then matchAt re pre (c0 :: suf) else None)
      as [x|] eqn:Hm.
    + destruct (skip =? 0); [|discriminate].
      apply in_app_or in H. destruct H as [H|H].
      * left. split; [exact H|]. exists [], (c0 :: suf), x. auto.
      * apply in_app_or in H. destruct H as [H|H].
        -- destruct (length (m0 x) =? 0) eqn:Hl; [|destruct H].
           destruct H as [->|[]]. right. exists [], suf. split; [reflexivity|].
           simpl. intros x' Hx'. rewrite Hm in Hx'. injection Hx' as <-.
           apply Nat.eqb_eq in Hl. destruct (m0 x); [reflexivity|discriminate].
        -- apply Hshift. eapply IH. exact H.
    + apply in_app_or in H. destruct H as [H|H].
      * destruct (skip =? 0); [|destruct H].
        destruct H as [->|[]]. right. exists [], suf. split; [reflexivity|].
        simpl. intros x' Hx'. rewrite Hm in Hx'. discriminate.
      * apply Hshift. eapply IH. exact H.
Qed.

Lemma repOpt_total body k e st :
  (forall st', k st' <> None) -> repOpt body k e st <> None.
Proof.
  intros Hk. destruct e; simpl; [apply Hk|].
  destruct (body _ st); [discriminate | apply Hk].
Qed.

(** [/\s+/] matches wherever a white-space character stands, and what it
    matches is not empty. *)
Lemma matchAt_whitespace pre c suf :
  isSpace c = true ->
  exists x, matchAt re_whitespace pre (c :: suf) = Some x /\ m0 x <> [].
Proof.
  intros Hc.
  destruct (matchAt re_whitespace pre (c :: suf)) as [x|] eqn:Hm.
  - exists x. split; [reflexivity|].
    apply matchAt_sound in Hm. destruct Hm as (post & _ & Hw & _).
    apply Matches_rep_class in Hw. destruct Hw as (Hl & _).
    intros E. rewrite E in Hl. simpl in Hl. lia.
  - exfalso. unfold matchAt in Hm.
    cbn [re_whitespace source ignoreCase rplus space m repReq after before
         cap1 cmem] in Hm.
    rewrite Hc in Hm.
    destruct (repOpt _ _ _ _) eqn:Hr; [discriminate|].
    revert Hr. apply repOpt_total. discriminate.
Qed.

Lemma replace_whitespace_plain (text : str) :
  PlainSpaces (replaceAll re_whitespace (lit " ") text).
Proof.
  intros c Hin Hc. apply replaceFrom_In in Hin.
  destruct Hin as [(Hr & _) | (a & suf' & _ & Hm)].
  - destruct Hr as [<-|[]]. reflexivity.
  - destruct (matchAt_whitespace (rev a ++ []) c suf' Hc) as (x & Hx & Hne).
    apply Hm in Hx. contradiction.
Qed.

Lemma replace_class_plain cls rep s :
  PlainSpaces rep -> PlainSpaces s ->
  PlainSpaces (replaceAll (mkRegExp (RClass cls) false true) rep s).
Proof.
  intros Hrep Hs c Hin Hc. unfold replaceAll in Hin.
  rewrite replaceFrom_class in Hin. apply in_flat_map in Hin.
  destruct Hin as (c0 & Hc0 & Hin).
  destruct (cmem false cls c0).
  - apply Hrep; assumption.
  - destruct Hin as [<-|[]]. apply Hs; assumption.
Qed.

Lemma PlainSpaces_no_LF s : PlainSpaces s -> ~ In LF s.
Proof. intros Hs Hin. specialize (Hs LF Hin eq_refl). discriminate. Qed.

(** [/\n\s*\n/] finds nothing in a text without line feed, which
    [replace] then leaves as it is, character for character. *)
Lemma replace_blankLines_incl rep s :
  ~ In LF s -> incl (replaceAll re_blankLines rep s) s.
Proof.
  intros Hs c Hin. apply replaceFrom_In in Hin.
  destruct Hin as [(_ & a & suf' & x & -> & Hm) | (a & suf' & -> & _)].
  - exfalso. apply Hs. apply matchAt_sound in Hm.
    destruct Hm as (post & -> & Hw & _).
    cbn [re_blankLines source rseq Matches rchar] in Hw.
    destruct Hw as (w1 & w2 & -> & (c0 & -> & Hc0) & _).
    cbn [cmem] in Hc0. apply Ascii.eqb_eq in Hc0. subst c0.
    apply in_or_app. right. left. reflexivity.
  - apply in_elt.
Qed.

Lemma incl_dropWhile p s : incl (dropWhile p s) s.
Proof.
  induction s as [|c s IH]; simpl; [apply incl_refl|].
  destruct (p c); [apply incl_tl; exact IH | apply incl_refl].
Qed.

Lemma incl_trim s : incl (trim s) s.
Proof.
  unfold trim. intros c Hc. apply in_rev in Hc.
  apply incl_dropWhile in Hc. apply in_rev in Hc.
  apply incl_dropWhile in Hc. exact Hc.
Qed.

Lemma PlainSpaces_incl s t : incl t s -> PlainSpaces s -> PlainSpaces t.
Proof. intros Hi Hs c Hin. apply Hs. apply Hi. exact Hin. Qed.

(** The cleaned text has no white space but plain spaces: no line feed. *)
Lemma cleanOCRText_plain (text : str) : PlainSpaces (cleanOCRText text).
Proof.
  unfold cleanOCRText.
  eapply PlainSpaces_incl; [apply incl_trim|].
  assert (H : PlainSpaces
            (replaceAll re_zero (lit "0")
               (replaceAll re_bar (lit "I")
                  (replaceAll re_whitespace (lit " ") text)))).
  { apply replace_class_plain.
    - intros c [<-|[]]. discriminate.
    - apply replace_class_plain.
      + intros c [<-|[]]. discriminate.
      + apply replace_whitespace_plain. }
  eapply PlainSpaces_incl; [|exact H].
  apply replace_blankLines_incl. apply PlainSpaces_no_LF. exact H.
Qed.

Lemma splitBy_no_sep sep s :
  (forall c, In c s -> sep c = false) -> splitBy sep s = [s].
Proof.
  induction s as [|c s IH]; intros H; simpl; [reflexivity|].
  rewrite (H c (or_introl eq_refl)), IH; [reflexivity|].
  intros c' Hc'. apply H. right. exact Hc'.
Qed.

Lemma linesOf_cleanOCRText (text : str) :
  linesOf (cleanOCRText text) =
  filter (fun line => 2 <? length line) [trim (cleanOCRText text)].
Proof.
  unfold linesOf. rewrite splitBy_no_sep; [reflexivity|].
  intros c Hc. destruct (Ascii.eqb LF c) eqn:E; [|reflexivity].
  apply Ascii.eqb_eq in E. subst c.
  exfalso. revert Hc. apply PlainSpaces_no_LF. apply cleanOCRText_plain.
Qed.

(** C3, the behaviour of the code: [/\s+/g] replaces the line feeds too, so
    the cleaned text is one line and the line view of the extractor never
    has a second element, whatever the number of lines of the raw text. *)
Theorem cleanOCRText_single_line (text : str) :
  ~ In LF (cleanOCRText text) /\
  length (linesOf (cleanOCRText text)) <= 1.
Proof.
  split.
  - apply PlainSpaces_no_LF. apply cleanOCRText_plain.
  - rewrite linesOf_cleanOCRText. simpl.
    destruct (2 <? _); simpl; lia.
Qed.

(** Two lines of raw text come out as one line. *)
Example linesOf_two_raw_lines :
  linesOf (cleanOCRText (lit "Ravi Kumar" ++ [LF] ++ lit "Sita Devi")) =
  [lit "Ravi Kumar Sita Devi"].
Proof. vm_compute. reflexivity. Qed.

(** ** What the field loops accept *)

Lemma firstAccepted_sound accept ms v :
  firstAccepted accept ms = Some v ->
  exists x g, In x ms /\ m1 x = Some g /\ accept g = Some v.
Proof.
  induction ms as [|x ms IH]; simpl; [discriminate|].
  intros H.
  assert (Hrec : firstAccepted accept ms = Some v ->
                 exists x0 g, (x = x0 \/ In x0 ms) /\ m1 x0 = Some g /\
                              accept g = Some v).
  { intros H'. apply IH in H'. destruct H' as (x0 & g & ? & ? & ?).
    exists x0, g. auto. }
  destruct (m1 x) as [g|] eqn:Hg; [|auto].
  destruct (truthy g); [|auto].
  destruct (accept g) as [v'|] eqn:Ha; [|auto].
  injection H as ->. exists x, g. auto.
Qed.

Lemma scanPatterns_sound accept text : forall ps cur v,
  scanPatterns accept text ps cur = Normal (Some v) ->
  cur = Some v \/ exists g, accept g = Some v.
Proof.
  induction ps as [|p ps IH]; intros cur v H; simpl in H.
  - injection H as ->. left. reflexivity.
  - destruct (matchAll p text) as [ms|e]; [|discriminate]. simpl in H.
    destruct (firstAccepted accept ms) as [v'|] eqn:Hf.
    + destruct (truthyOpt (Some v')).
      * injection H as ->. apply firstAccepted_sound in Hf.
        destruct Hf as (x & g & _ & _ & Ha). eauto.
      * apply IH in H. destruct H as [H|H]; [|auto].
        injection H as ->. apply firstAccepted_sound in Hf.
        destruct Hf as (x & g & _ & _ & Ha). eauto.
    + destruct (truthyOpt cur); [injection H as ->; auto|].
      apply IH in H. exact H.
Qed.

(** A regex that starts with [^] matches from the start of the text. *)
Lemma test_bol r i g s :
  test (mkRegExp (RSeq RBol r) i g) s = true ->
  exists w post, s = w ++ post /\ Matches i r [] w post.
Proof.
  intros H. apply test_sound in H.
  destruct H as (a & w & post & -> & Hw). simpl in Hw.
  destruct Hw as (w1 & w2 & -> & (-> & Ha) & Hw2).
  apply (f_equal (@rev ascii)) in Ha. rewrite rev_involutive in Ha.
  simpl in Ha. subst a. simpl in *. eauto.
Qed.

Lemma acceptAadhaar_sound g v :
  acceptAadhaar g = Some v ->
  length v = 12 /\ Forall (fun c => isDigit c = true) v.
Proof.
  unfold acceptAadhaar. intros H.
  destruct (length _ =? 12) eqn:Hl; [|discriminate].
  destruct (test re_twelveDigits _) eqn:Ht; [|discriminate].
  simpl in H. injection H as <-.
  apply Nat.eqb_eq in Hl. split; [exact Hl|].
  apply test_bol in Ht. destruct Ht as (w & post & Hs & Hw).
  cbn [rseq Matches] in Hw.
  destruct Hw as (w1 & w2 & -> & Hw1 & (-> & ->)).
  rewrite !app_nil_r in Hs. rewrite Hs.
  apply Matches_rep_class in Hw1. apply Hw1.
Qed.

Lemma acceptPhone_sound g v :
  acceptPhone g = Some v ->
  length v = 10 /\ Forall (fun c => isDigit c = true) v /\
  exists c rest, v = c :: rest /\ inRange 54 57 c = true.
Proof.
  unfold acceptPhone. intros H.
  destruct (length _ =? 10) eqn:Hl; [|discriminate].
  destruct (test re_mobile _) eqn:Ht; [|discriminate].
  simpl in H. injection H as <-.
  apply Nat.eqb_eq in Hl. split; [exact Hl|].
  apply test_bol in Ht. destruct Ht as (w & post & Hs & Hw).
  cbn [rseq Matches] in Hw.
  destruct Hw as (w1 & w2 & -> & (c & -> & Hc) & w3 & w4 & -> & Hw3 &
                  (-> & ->)).
  rewrite !app_nil_r in Hs. rewrite Hs.
  apply Matches_rep_class in Hw3. destruct Hw3 as (_ & _ & Hd).
  cbn [cmem c69] in Hc. change (inRange 54 57 c = true) in Hc.
  split.
  - simpl. constructor; [|exact Hd].
    unfold isDigit, inRange in *.
    apply andb_true_iff in Hc. destruct Hc as [H1 H2].
    apply Nat.leb_le in H1. apply Nat.leb_le in H2.
    apply andb_true_iff. split; apply Nat.leb_le; lia.
  - exists c, w3. auto.
Qed.

Lemma extract_fields text data :
  extractDataFromText text = Normal data ->
  scanPatterns acceptAadhaar (cleanOCRText text) patterns_aadhaarNumber None
    = Normal (idNumber data) /\
  scanPatterns acceptPhone (cleanOCRText text) patterns_phoneNumber None
    = Normal (phoneNumber data) /\
  scanPatterns acceptDate (cleanOCRText text) patterns_dateOfBirth None
    = Normal (dateOfBirth data) /\
  fullTextName (cleanOCRText text)
    (nameLines (linesOf (cleanOCRText text)) None) = name data.
Proof.
  unfold extractDataFromText. intros H.
  destruct (scanPatterns acceptAadhaar _ _ _) as [i|]; [|discriminate].
  destruct (scanPatterns acceptPhone _ _ _) as [p|]; [|discriminate].
  destruct (scanPatterns acceptDate _ _ _) as [d|]; [|discriminate].
  simpl in H. injection H as <-. simpl. auto.
Qed.

(** The third date pattern has no [g] flag: when the first two find no
    date, [matchAll] throws and extraction returns nothing. *)
Example extract_without_date_throws :
  extractDataFromText (lit "Ravi Kumar 1234 5678 9123") = Throw TypeError.
Proof. vm_compute. reflexivity. Qed.

Example extract_sample :
  extractDataFromText
    (lit "Ravi Kumar" ++ [LF] ++ lit "1234 5678 9123" ++ [LF] ++
     lit "DOB: 01/02/1990" ++ [LF] ++ lit "Mobile: 9876543210")
  = Normal (mkExtractedData (Some (lit "Ravi Kumar"))
              (Some (lit "01/02/1990")) (Some (lit "123456789123"))
              (Some (lit "9876543210"))).
Proof. vm_compute. reflexivity. Qed.

(** ** ID number and phone number *)



Lemma matchesFrom_matchAt re x : forall suf skip pre,
  In x (matchesFrom re skip pre suf) ->
  exists pre' suf', matchAt re pre' suf' = Some x /\
                    exists a, suf = a ++ suf'.
Proof.
  induction suf as [|c suf IH]; intros skip pre H; simpl in H.
  - destruct (skip =? 0); [|destruct H].
    destruct (matchAt re pre []) as [y|] eqn:Hm; [|destruct H].
    destruct H as [->|[]]. exists pre, []. split; [exact Hm | exists []; reflexivity].
  - assert (Hrec : forall k, In x (matchesFrom re k (c :: pre) suf) ->
              exists pre' suf', matchAt re pre' suf' = Some x /\
                exists a, c :: suf = a ++ suf').
    { intros k Hk. apply IH in Hk.
      destruct Hk as (pre' & suf' & Hm & a & ->).
      exists pre', suf'. split; [exact Hm | exists (c :: a); reflexivity]. }
    destruct (if skip =? 0 then matchAt re pre (c :: suf) else None)
      as [y|] eqn:Hm.
    + destruct H as [->|H]; [|eapply Hrec; exact H].
      destruct (skip =? 0); [|discriminate].
      exists pre, (c :: suf). split; [exact Hm | exists []; reflexivity].
    + eapply Hrec; exact H.
Qed.

(** A capturing group run to the end of the match holds what it matched. *)
Lemma group_last i r st res :
  m i (RGroup r) (fun st' => Some st') st = Some res ->
  exists w,
    after st = w ++ after res /\ cap1 res = Some w /\
    before res = rev w ++ before st /\
    Matches i r (before st) w (after res).
Proof.
  cbn [m]. intros H. apply m_sound in H.
  destruct H as (w & post & cp & Hst & Hw & Hk & _).
  injection Hk as <-. cbn [after cap1 before].
  exists w. rewrite Hst, firstn_app_exact. auto.
Qed.

(** The mandatory iterations of a character class read the characters
    that belong to it. *)
Lemma repReq_class_complete i cls k : forall n w post pre cp,
  length w = n -> Forall (fun c => cmem i cls c = true) w ->
  repReq (m i (RClass cls)) k n (MState pre (w ++ post) cp)
  = k (MState (rev w ++ pre) post cp).
Proof.
  induction n as [|n IH]; intros w post pre cp Hl Hf.
  - destruct w; [reflexivity | discriminate Hl].
  - destruct w as [|c w]; [discriminate Hl|].
    inversion Hf as [|? ? Hc Hw]; subst.
    cbn [repReq m after before cap1 app]. rewrite Hc.
    rewrite IH; [|simpl in Hl; lia|exact Hw].
    cbn [rev]. rewrite <- app_assoc. reflexivity.
Qed.

Lemma range_6_9_digit (c : ascii) : inRange 54 57 c = true -> isDigit c = true.
Proof.
  unfold isDigit, inRange. rewrite !andb_true_iff, !Nat.leb_le. lia.
Qed.

(** [/^[6-9]\d{9}$/] holds of every mobile number. *)
Lemma test_mobile_complete (v : str) : MobileNumber v -> test re_mobile v = true.
Proof.
  intros (Hl & Hd & c & rest & -> & Hc).
  inversion Hd as [|? ? _ Hrest]; subst.
  unfold test, exec. cbn [search]. unfold matchAt.
  assert (E : m (ignoreCase re_mobile) (source re_mobile) (fun st => Some st)
                (MState [] (c :: rest) None)
              = if inRange 54 57 c
                then repReq (m false (RClass CDigit))
                       (repOpt (m false (RClass CDigit))
                          (m false REol (fun st => Some st)) 0)
                       9 (MState [c] (rest ++ []) None)
                else None).
  { rewrite app_nil_r. reflexivity. }
  rewrite E, Hc.
  rewrite repReq_class_complete; [reflexivity | | exact Hrest].
  simpl in Hl. lia.
Qed.

Lemma replace_spaceOrDash (g : str) :
  replaceAll re_spaceOrDash [] g = stripSpaceDash g.
Proof. unfold re_spaceOrDash. apply replaceAll_class_nil. Qed.

(** What [acceptPhone] accepts, and what it then returns. *)
Lemma acceptPhone_spec g v :
  acceptPhone g = Some v <-> v = stripSpaceDash g /\ MobileNumber v.
Proof.
  split.
  - intros H. split; [|apply acceptPhone_sound in H; exact H].
    unfold acceptPhone in H. rewrite replace_spaceOrDash in H.
    destruct (_ && _); [|discriminate]. injection H as <-. reflexivity.
  - intros (-> & Hm). unfold acceptPhone. rewrite replace_spaceOrDash.
    rewrite (test_mobile_complete _ Hm).
    destruct Hm as (-> & _). reflexivity.
Qed.

(** The patterns are tried in the order of the list, and the first one with
    an accepted match gives the field. *)
Lemma scanPatterns_firstSome accept t :
  (forall g v, accept g = Some v -> truthy v = true) ->
  forall ps,
  Forall (fun p => global p = true) ps ->
  scanPatterns accept t ps None
  = Normal (firstSome
              (map (fun p => firstAccepted accept (matchesFrom p 0 [] t)) ps)).
Proof.
  intros Hacc. induction 1 as [|p ps Hg Hps IH]; [reflexivity|].
  cbn [scanPatterns map firstSome]. unfold matchAll. rewrite Hg. cbn [bind].
  destruct (firstAccepted accept (matchesFrom p 0 [] t)) as [v|] eqn:Hf.
  - apply firstAccepted_sound in Hf. destruct Hf as (x & g & _ & _ & Ha).
    cbn [truthyOpt]. rewrite (Hacc g v Ha). reflexivity.
  - cbn [truthyOpt]. exact IH.
Qed.

(** What the pattern with the country code matches and captures. *)
Lemma countryCode_capture pre suf x :
  matchAt (nth 1 patterns_phoneNumber re_space) pre suf = Some x ->
  exists sep g,
    m0 x = lit "+91" ++ sep ++ g /\ m1 x = Some g /\
    length sep <= 1 /\
    Forall (fun c => isSpace c = true \/ c = "-"%char) sep /\
    MobileNumber g.
Proof.
  unfold matchAt. intros H.
  destruct (m _ _ _ _) as [res|] eqn:Hm; [|discriminate].
  injection H as <-. cbn [m0 m1].
  change (m false (rstr (lit "+91"))
            (m false (ropt (RClass (CUnion CSpace (CChar "-"))))
               (m false (RGroup (RSeq (RClass c69) (rtimes 9 digit)))
                  (fun st => Some st)))
            (MState pre suf None) = Some res) in Hm.
  apply m_sound in Hm. cbn [before after] in Hm.
  destruct Hm as (w1 & post1 & cp1 & -> & Hw1 & Hk & _).
  apply m_sound in Hk. cbn [before after] in Hk.
  destruct Hk as (w2 & post2 & cp2 & -> & Hw2 & Hk & _).
  apply group_last in Hk. cbn [before after] in Hk.
  destruct Hk as (w3 & -> & Hcap & _ & Hw3).
  exists w2, w3.
  assert (E1 : w1 = lit "+91").
  { cbn [lit list_ascii_of_string rstr Matches rchar] in Hw1.
    destruct Hw1 as (a & b & -> & (c1 & -> & H1) & a' & b' & -> &
                     (c2 & -> & H2) & (c3 & -> & H3)).
    cbn [cmem] in H1, H2, H3.
    apply Ascii.eqb_eq in H1, H2, H3. subst. reflexivity. }
  subst w1. repeat split.
  - rewrite !app_assoc. rewrite firstn_app_exact. reflexivity.
  - exact Hcap.
  - apply (Matches_rep_class false 0 (Some 1)) in Hw2.
    destruct Hw2 as (_ & Hl & _). simpl in Hl. exact Hl.
  - apply (Matches_rep_class false 0 (Some 1)) in Hw2.
    destruct Hw2 as (_ & _ & Hf).
    eapply Forall_impl; [|exact Hf]. cbn [cmem]. intros c Hc.
    apply orb_true_iff in Hc. destruct Hc as [Hc|Hc]; [left; exact Hc|].
    right. apply Ascii.eqb_eq in Hc. symmetry. exact Hc.
  - destruct Hw3 as (wa & wb & -> & (c & -> & Hc) & Hwb).
    apply (Matches_rep_class false 9 (Some 9) CDigit) in Hwb.
    destruct Hwb as (Hl1 & Hl2 & Hd). simpl in Hl2. simpl. lia.
  - destruct Hw3 as (wa & wb & -> & (c & -> & Hc) & Hwb).
    apply (Matches_rep_class false 9 (Some 9) CDigit) in Hwb.
    destruct Hwb as (_ & _ & Hd).
    constructor; [apply range_6_9_digit; exact Hc | exact Hd].
  - destruct Hw3 as (wa & wb & -> & (c & -> & Hc) & Hwb).
    exists c, wb. split; [reflexivity | exact Hc].
Qed.

(** C9: phone-number extraction. A phone number that extraction returns is
    ten decimal digits, the first of them between 6 and 9. The four patterns
    are tried in the order of the list, the first with an accepted match
    gives the number, and the bare run of ten digits is the last of them. A
    capture is accepted exactly when, with its white space and dashes
    removed, it is such a number, and that stripped form is what is
    returned. The pattern with the country code captures the number without
    the [+91] and without the separator that may follow it. *)
Theorem phoneNumber_ten_digits (text : str) (data : ExtractedData) :
  extractDataFromText text = Normal data ->
  (forall v, phoneNumber data = Some v ->
     length v = 10 /\ Forall (fun c => isDigit c = true) v /\
     exists c rest, v = c :: rest /\ inRange 54 57 c = true) /\
  phoneNumber data
  = firstSome
      (map (fun pattern =>
              firstAccepted acceptPhone
                (matchesFrom pattern 0 [] (cleanOCRText text)))
         patterns_phoneNumber) /\
  last patterns_phoneNumber re_space
  = mkRegExp (rseq [RWordB; RGroup (rtimes 10 digit); RWordB]) false true /\
  (forall g v,
     acceptPhone g = Some v <-> v = stripSpaceDash g /\ MobileNumber v) /\
  (forall x,
     In x (matchesFrom (nth 1 patterns_phoneNumber re_space) 0 []
             (cleanOCRText text)) ->
     exists sep g,
       m0 x = lit "+91" ++ sep ++ g /\ m1 x = Some g /\
       length sep <= 1 /\
       Forall (fun c => isSpace c = true \/ c = "-"%char) sep /\
       MobileNumber g).
Proof.
  intros H. apply extract_fields in H. destruct H as (_ & Hph & _).
  split; [|split; [|split; [|split]]].
  - intros v Hv. rewrite Hv in Hph. apply scanPatterns_sound in Hph.
    destruct Hph as [Hph | (g & Hg)]; [discriminate|].
    apply acceptPhone_sound in Hg. exact Hg.
  - rewrite scanPatterns_firstSome in Hph.
    + injection Hph as Hph. symmetry. exact Hph.
    + intros g v Ha. apply acceptPhone_sound in Ha.
      destruct Ha as (Hl & _). destruct v; [discriminate Hl | reflexivity].
    + unfold patterns_phoneNumber. repeat constructor.
  - reflexivity.
  - apply acceptPhone_spec.
  - intros x Hx. apply matchesFrom_matchAt in Hx.
    destruct Hx as (pre' & suf' & Hm & _).
    eapply countryCode_capture. exact Hm.
Qed.

Lemma phoneNumber_ten_digits_witness :
  (forall v,
     phoneNumber
       (mkExtractedData None (Some (lit "01/02/1990")) None
          (Some (lit "9876543210"))) = Some v ->
     length v = 10 /\ Forall (fun c => isDigit c = true) v /\
     exists c rest, v = c :: rest /\ inRange 54 57 c = true) /\
  phoneNumber
    (mkExtractedData None (Some (lit "01/02/1990")) None
       (Some (lit "9876543210")))
  = firstSome
      (map (fun pattern =>
              firstAccepted acceptPhone
                (matchesFrom pattern 0 []
                   (cleanOCRText
                      (lit "DOB 01/02/1990 Mobile +91 98765-43210"))))
         patterns_phoneNumber) /\
  last patterns_phoneNumber re_space
  = mkRegExp (rseq [RWordB; RGroup (rtimes 10 digit); RWordB]) false true /\
  (forall g v,
     acceptPhone g = Some v <-> v = stripSpaceDash g /\ MobileNumber v) /\
  (forall x,
     In x (matchesFrom (nth 1 patterns_phoneNumber re_space) 0 []
             (cleanOCRText (lit "DOB 01/02/1990 Mobile +91 98765-43210"))) ->
     exists sep g,
       m0 x = lit "+91" ++ sep ++ g /\ m1 x = Some g /\
       length sep <= 1 /\
       Forall (fun c => isSpace c = true \/ c = "-"%char) sep /\
       MobileNumber g).
Proof.
  apply (phoneNumber_ten_digits
           (lit "DOB 01/02/1990 Mobile +91 98765-43210")
           (mkExtractedData None (Some (lit "01/02/1990")) None
              (Some (lit "9876543210")))).
  vm_compute. reflexivity.
Defined.

(** The number is returned without spaces and dashes, and without the
    country code. *)
Example phoneNumber_stripped :
  acceptPhone (lit "98765-43210") = Some (lit "9876543210") /\
  acceptPhone (lit "98765 43210") = Some (lit "9876543210") /\
  extractDataFromText (lit "DOB 01/02/1990 Mobile 98765 43210")
  = Normal (mkExtractedData None (Some (lit "01/02/1990")) None
              (Some (lit "9876543210"))) /\
  extractDataFromText (lit "DOB 01/02/1990 Mobile +91-9876543210x")
  = Normal (mkExtractedData None (Some (lit "01/02/1990")) None
              (Some (lit "9876543210"))).
Proof. repeat split; vm_compute; reflexivity. Qed.

(** Country code and separators are left out of the number returned. *)
Example phoneNumber_prefix_and_dash :
  extractDataFromText (lit "DOB 01/02/1990 Mobile +91 98765-43210")
  = Normal (mkExtractedData None (Some (lit "01/02/1990")) None
              (Some (lit "9876543210"))).
Proof. vm_compute. reflexivity. Qed.

(** ** Name *)

Lemma word_shape lo pre w post :
  Matches false (RSeq (RClass cAZ) (RRep (S lo) None (RClass caz))) pre w post
  -> ProperWord w.
Proof.
  intros (w1 & w2 & -> & (c & -> & Hc) & Hw2).
  apply Matches_rep_class in Hw2. destruct Hw2 as (Hl & _ & Hf).
  exists c, w2. repeat split.
  - exact Hc.
  - intros ->. simpl in Hl. lia.
  - exact Hf.
Qed.

Lemma properWord_shape pre w post :
  Matches false properWord pre w post -> ProperWord w.
Proof. apply word_shape. Qed.

Lemma longWord_shape pre w post :
  Matches false longWord pre w post -> ProperWord w.
Proof. apply word_shape. Qed.

Section SpacedIterations.

Variable rw : regex.
Hypothesis rw_shape :
  forall pre w post, Matches false rw pre w post -> ProperWord w.

Lemma Iter_spaced : forall ws pre post,
  ws <> [] ->
  Iter (Matches false (RSeq space rw)) pre ws post ->
  exists c rest, concat ws = c :: rest /\ isSpace c = true /\
                 SpacedWords (length ws) rest.
Proof.
  induction ws as [|x ws IH]; intros pre post Hne H; [contradiction|].
  simpl in H.
  destruct H as [(w1 & w & -> & (c & -> & Hc) & Hw) Hit].
  apply rw_shape in Hw.
  destruct ws as [|y ws].
  - exists c, w. simpl. rewrite app_nil_r. repeat split; auto.
    constructor. exact Hw.
  - apply IH in Hit; [|discriminate].
    destruct Hit as (c' & rest & Hcat & Hc' & Hsw).
    exists c, (w ++ c' :: rest). repeat split.
    + change (concat (([c] ++ w) :: y :: ws))
        with (c :: w ++ concat (y :: ws)).
      rewrite Hcat. reflexivity.
    + exact Hc.
    + apply SW_more; assumption.
Qed.

End SpacedIterations.

Lemma properName_shape pre w post :
  Matches false properName pre w post ->
  exists k, 2 <= k /\ k <= 4 /\ SpacedWords k w.
Proof.
  intros (w1 & w2 & -> & Hw1 & ws & -> & Hlo & Hhi & Hit).
  apply properWord_shape in Hw1.
  apply (Iter_spaced properWord properWord_shape) in Hit.
  - destruct Hit as (c & rest & -> & Hc & Hsw).
    exists (S (length ws)). simpl in Hhi. repeat split; try lia.
    apply SW_more; assumption.
  - intros ->. simpl in Hlo. lia.
Qed.

Lemma fullTextName_shape pre w post :
  Matches false (source re_fullTextName) pre w post ->
  exists k, 2 <= k /\ k <= 4 /\ SpacedWords k w.
Proof.
  cbn [re_fullTextName source rseq Matches ropt].
  intros (w0 & w1 & -> & (-> & _) & wx & w2 & -> & Hx & (-> & _)).
  destruct Hx as (wa & w3 & -> & Ha & wc & w4 & -> & (c & -> & Hc) &
                  wb & wo & -> & Hb & ws & -> & _ & Hhi & Hit).
  apply longWord_shape in Ha. apply longWord_shape in Hb.
  simpl. rewrite app_nil_r.
  destruct ws as [|x ws].
  - exists 2. simpl. rewrite app_nil_r. repeat split; try lia.
    apply SW_more; [exact Ha | exact Hc |]. constructor. exact Hb.
  - apply (Iter_spaced longWord longWord_shape) in Hit; [|discriminate].
    destruct Hit as (c' & rest & -> & Hc' & Hsw).
    exists (S (S (length (x :: ws)))). simpl in Hhi.
    repeat split; simpl; try lia.
    apply SW_more; [exact Ha | exact Hc |].
    apply SW_more; assumption.
Qed.

Lemma SpacedWords_pos k s : SpacedWords k s -> 1 <= k.
Proof. intros H. destruct H; lia. Qed.

Lemma PlainSpaces_app_l s t : PlainSpaces (s ++ t) -> PlainSpaces s.
Proof. apply PlainSpaces_incl. apply incl_appl. apply incl_refl. Qed.

Lemma PlainSpaces_app_r s t : PlainSpaces (s ++ t) -> PlainSpaces t.
Proof. apply PlainSpaces_incl. apply incl_appr. apply incl_refl. Qed.

Lemma SpacedWords_join k s :
  SpacedWords k s -> PlainSpaces s ->
  exists ws, length ws = k /\ Forall ProperWord ws /\
             s = joinWith (lit " ") ws.
Proof.
  induction 1 as [w Hw | w c n rest Hw Hc Hsw IH]; intros Hp.
  - exists [w]. repeat split. constructor; [exact Hw | constructor].
  - assert (Hc' : c = " "%char).
    { apply Hp; [|exact Hc]. apply in_elt. }
    subst c.
    destruct IH as (ws & Hl & Hf & ->).
    { apply PlainSpaces_app_r in Hp.
      intros x Hx. apply Hp. right. exact Hx. }
    apply SpacedWords_pos in Hsw.
    destruct ws as [|x ws]; [simpl in Hl; lia|].
    exists (w :: x :: ws). repeat split.
    + simpl in *. lia.
    + constructor; assumption.
Qed.

Lemma ProperWord_letters w :
  ProperWord w -> Forall (fun c => isLetterOrSpace c = true) w.
Proof.
  intros (c & cs & -> & Hc & _ & Hcs). constructor.
  - unfold isLetterOrSpace. rewrite Hc. reflexivity.
  - eapply Forall_impl; [|exact Hcs]. simpl. intros x Hx.
    unfold isLetterOrSpace. rewrite Hx. apply orb_true_iff. left.
    apply orb_true_r.
Qed.

Lemma SpacedWords_letters k s :
  SpacedWords k s -> PlainSpaces s ->
  Forall (fun c => isLetterOrSpace c = true) s.
Proof.
  induction 1 as [w Hw | w c n rest Hw Hc Hsw IH]; intros Hp.
  - apply ProperWord_letters. exact Hw.
  - apply Forall_app. split; [apply ProperWord_letters; exact Hw|].
    constructor.
    + rewrite (Hp c); [reflexivity | apply in_elt | exact Hc].
    + apply IH. apply PlainSpaces_app_r in Hp.
      intros x Hx. apply Hp. right. exact Hx.
Qed.

Lemma SpacedWords_wellFormed k s :
  2 <= k -> k <= 4 -> SpacedWords k s -> PlainSpaces s -> length s <= 35 ->
  WellFormedName s.
Proof.
  intros H2 H4 Hsw Hp Hl. repeat split.
  - destruct (SpacedWords_join _ _ Hsw Hp) as (ws & Hk & Hf & Hs).
    exists ws. rewrite Hk. auto.
  - exact Hl.
  - eapply SpacedWords_letters; eassumption.
Qed.

(** *** The line pass *)

Lemma nameFromMatch_sound mt n :
  nameFromMatch mt = Some n ->
  exists x g, mt = Some x /\ m1 x = Some g /\ n = trim g /\
              length n <= 35 /\ test re_properName n = true.
Proof.
  unfold nameFromMatch. intros H.
  destruct mt as [x|]; [|discriminate].
  destruct (m1 x) as [g|] eqn:Hg; [|discriminate].
  destruct (truthy g); [|discriminate].
  destruct ((4 <=? length (trim g)) && (length (trim g) <=? 35)
            && test re_properName (trim g)) eqn:Hv; [|discriminate].
  destruct (negb _); [|discriminate].
  injection H as <-.
  apply andb_true_iff in Hv. destruct Hv as [Hv Ht].
  apply andb_true_iff in Hv. destruct Hv as [_ Hl].
  apply Nat.leb_le in Hl.
  exists x, g. auto.
Qed.

Lemma namePatterns_sound line : forall ps n,
  namePatterns line ps = Some n ->
  exists g, incl g line /\ n = trim g /\ length n <= 35 /\
            test re_properName n = true.
Proof.
  induction ps as [|p ps IH]; intros n H; simpl in H; [discriminate|].
  destruct (nameFromMatch (exec p line)) as [v|] eqn:Hm.
  - injection H as ->. apply nameFromMatch_sound in Hm.
    destruct Hm as (x & g & Hx & Hg & Hn & Hl & Ht).
    apply search_sound in Hx. destruct Hx as (_ & _ & _ & _ & Hincl).
    exists g. auto.
  - apply IH. exact H.
Qed.

Lemma nameLines_sound : forall lines cur n,
  nameLines lines cur = Some n ->
  cur = Some n \/
  exists line g, In line lines /\ incl g line /\ n = trim g /\
                 length n <= 35 /\ test re_properName n = true.
Proof.
  induction lines as [|line rest IH]; intros cur n H; cbn [nameLines] in H.
  - left. exact H.
  - assert (Hrec : forall cur', nameLines rest cur' = Some n ->
              cur' = Some n \/
              exists line0 g, (line = line0 \/ In line0 rest) /\
                incl g line0 /\ n = trim g /\ length n <= 35 /\
                test re_properName n = true).
    { intros cur' H'. apply IH in H'.
      destruct H' as [H' | (l0 & g & ? & ? & ? & ? & ?)]; [left; exact H'|].
      right. exists l0, g. auto. }
    destruct (truthyOpt cur); [left; exact H|].
    destruct (isHeaderText _); [apply Hrec; exact H|].
    destruct (test re_anyDigit line); [apply Hrec; exact H|].
    destruct (_ || _); [apply Hrec; exact H|].
    apply Hrec in H. destruct H as [H|H]; [|right; exact H].
    destruct (namePatterns line patterns_name) as [v|] eqn:Hp;
      [|left; exact H].
    injection H as ->. apply namePatterns_sound in Hp.
    destruct Hp as (g & ? & ? & ? & ?).
    right. exists line, g. simpl. auto.
Qed.

Lemma validated_name_wellFormed n :
  PlainSpaces n -> length n <= 35 -> test re_properName n = true ->
  WellFormedName n.
Proof.
  intros Hp Hl Ht. apply test_bol in Ht.
  destruct Ht as (w & post & Hn & Hw).
  cbn [rseq Matches] in Hw.
  destruct Hw as (w1 & w2 & -> & Hw1 & (-> & ->)).
  rewrite !app_nil_r in Hn. subst w1.
  apply properName_shape in Hw1. destruct Hw1 as (k & H2 & H4 & Hsw).
  eapply SpacedWords_wellFormed; eassumption.
Qed.

(** The name of the line pass satisfies the invariant. *)
Lemma nameLines_wellFormed text n :
  nameLines (linesOf (cleanOCRText text)) None = Some n -> WellFormedName n.
Proof.
  intros H. apply nameLines_sound in H.
  destruct H as [H | (line & g & Hin & Hg & -> & Hl & Ht)]; [discriminate|].
  apply validated_name_wellFormed; [|exact Hl|exact Ht].
  rewrite linesOf_cleanOCRText in Hin. apply filter_In in Hin.
  destruct Hin as [[<-|[]] _].
  eapply PlainSpaces_incl; [|apply (cleanOCRText_plain text)].
  intros c Hc. apply incl_trim. apply Hg. apply incl_trim. exact Hc.
Qed.

(** *** The full-text pass *)

Lemma firstValidName_sound : forall l n,
  firstValidName l = Some n -> In n l /\ length n <= 35.
Proof.
  induction l as [|x l IH]; intros n H; cbn [firstValidName] in H;
    [discriminate|].
  destruct (negb _ && (4 <=? length x) && (length x <=? 35)) eqn:Hv.
  - injection H as <-. split; [left; reflexivity|].
    apply andb_true_iff in Hv. destruct Hv as [_ Hl].
    apply Nat.leb_le. exact Hl.
  - apply IH in H. destruct H. split; [right|]; assumption.
Qed.

Lemma matchG_In re s l n :
  matchG re s = Some l -> In n l ->
  exists x, In x (matchesFrom re 0 [] s) /\ n = m0 x.
Proof.
  unfold matchG. intros H Hin.
  destruct (matchesFrom re 0 [] s) as [|y ms]; [discriminate|].
  injection H as <-. change (In n (map m0 (y :: ms))) in Hin.
  apply in_map_iff in Hin. destruct Hin as (x & <- & Hx). eauto.
Qed.

(** The name of the full-text pass satisfies the invariant. *)
Lemma fullTextName_wellFormed text n :
  fullTextName (cleanOCRText text) None = Some n -> WellFormedName n.
Proof.
  unfold fullTextName. cbn [truthyOpt negb]. intros H.
  destruct (matchG re_fullTextName _) as [l|] eqn:Hm; [|discriminate].
  destruct (firstValidName l) as [v|] eqn:Hv; [|discriminate].
  injection H as ->. apply firstValidName_sound in Hv. destruct Hv as [Hin Hl].
  destruct (matchG_In _ _ _ _ Hm Hin) as (x & Hx & ->).
  apply matchesFrom_sound in Hx. destruct Hx as (a & post & Hs & Hw & _).
  apply fullTextName_shape in Hw. destruct Hw as (k & H2 & H4 & Hsw).
  eapply SpacedWords_wellFormed; try eassumption.
  assert (Hp : PlainSpaces
                 (replaceAll re_newline (lit " ") (cleanOCRText text))).
  { apply replace_class_plain; [|apply cleanOCRText_plain].
    intros c [<-|[]] _. reflexivity. }
  rewrite Hs in Hp. apply PlainSpaces_app_r in Hp.
  apply PlainSpaces_app_l in Hp. exact Hp.
Qed.

Lemma fullTextName_keeps cleanedText v n :
  truthy v = true -> fullTextName cleanedText (Some v) = Some n -> v = n.
Proof.
  unfold fullTextName. simpl. intros -> H. simpl in H. congruence.
Qed.

(** C10: a name that extraction returns, from the line pass or from the
    full-text pass, is two to four words separated by single spaces, each
    an upper-case letter followed by lower-case letters; it has no digit and
    no punctuation, and at most 35 characters. *)
Theorem name_wellFormed (text : str) (data : ExtractedData) (n : str) :
  extractDataFromText text = Normal data ->
  name data = Some n ->
  WellFormedName n.
Proof.
  intros H Hn. apply extract_fields in H. destruct H as (_ & _ & _ & H).
  rewrite Hn in H.
  destruct (nameLines (linesOf (cleanOCRText text)) None) as [v|] eqn:Hv.
  - assert (Hwf : WellFormedName v) by (eapply nameLines_wellFormed; eauto).
    destruct v as [|c v].
    + exfalso. destruct Hwf as ((ws & H2 & _ & _ & Hj) & _).
      destruct ws as [|w [|w' ws]]; simpl in H2; try lia.
      cbn [joinWith] in Hj. symmetry in Hj.
      apply app_eq_nil in Hj. destruct Hj as [_ Hj]. discriminate.
    + apply fullTextName_keeps in H; [|reflexivity]. subst n. exact Hwf.
  - eapply fullTextName_wellFormed. exact H.
Qed.

Lemma name_wellFormed_witness : WellFormedName (lit "Ravi Kumar").
Proof.
  apply (name_wellFormed
           (lit "Ravi Kumar 1234 5678 9123 DOB 01/02/1990")
           (mkExtractedData (Some (lit "Ravi Kumar")) (Some (lit "01/02/1990"))
              (Some (lit "123456789123")) None)
           (lit "Ravi Kumar")).
  - vm_compute. reflexivity.
  - reflexivity.
Defined.

(** * Further properties of the comparators and of the verdict *)

Lemma Substring_refl (s : str) : Substring s s.
Proof. exists [], []. rewrite app_nil_r. reflexivity. Qed.

Lemma includes_refl (s : str) : includes s s = true.
Proof. apply includes_spec. apply Substring_refl. Qed.

Lemma strEq_refl (s : str) : strEq s s = true.
Proof. apply strEq_true_iff. reflexivity. Qed.

(** X1: with both sides non-empty, [comparePhones] holds exactly when the
    digits of one side occur, in a row, in the digits of the other. *)
Theorem comparePhones_spec (extracted entered : str) :
  truthy extracted = true -> truthy entered = true ->
  (comparePhones (Some extracted) entered = true <->
   Substring (digitsOf entered) (digitsOf extracted) \/
   Substring (digitsOf extracted) (digitsOf entered)).
Proof.
  intros He Hn. unfold comparePhones. rewrite He, Hn. cbn [negb orb].
  rewrite !normalizePhone_spec.
  rewrite !orb_true_iff, !includes_spec, strEq_true_iff.
  split; [|tauto].
  intros [[H|H]|H]; [left; exact H | right; exact H |].
  left. rewrite H. apply Substring_refl.
Qed.

Lemma comparePhones_spec_witness :
  comparePhones (Some (lit "9876543210")) (lit "+91 98765 43210") = true <->
  Substring (digitsOf (lit "+91 98765 43210")) (digitsOf (lit "9876543210")) \/
  Substring (digitsOf (lit "9876543210")) (digitsOf (lit "+91 98765 43210")).
Proof.
  apply (comparePhones_spec (lit "9876543210") (lit "+91 98765 43210"));
    reflexivity.
Defined.

(** X2: the date and the phone comparators give the same answer when their
    two arguments are exchanged. *)
Theorem compareDates_comparePhones_symmetric (a b : str) :
  compare DateOfBirth (Some a) b = compare DateOfBirth (Some b) a /\
  compare PhoneNumber (Some a) b = compare PhoneNumber (Some b) a.
Proof.
  split; simpl.
  - unfold compareDates.
    rewrite (orb_comm (negb (truthy a))).
    rewrite (strEq_sym (normalizeDate a)). reflexivity.
  - unfold comparePhones.
    rewrite (orb_comm (negb (truthy a))).
    rewrite (strEq_sym (normalizePhone a)).
    rewrite (orb_comm (includes (normalizePhone a) (normalizePhone b))).
    reflexivity.
Qed.

(** X3: under the comparator of every field, a non-empty value matches
    itself. *)
Theorem compare_self (f : FieldName) (a : str) :
  truthy a = true -> compare f (Some a) a = true.
Proof.
  intros Ha.
  destruct f; simpl; unfold compareFields, compareDates, comparePhones;
    rewrite Ha; cbn [negb orb].
  - rewrite includes_refl, strEq_refl. destruct (_ || _); reflexivity.
  - apply strEq_refl.
  - rewrite includes_refl, strEq_refl. destruct (_ || _); reflexivity.
  - rewrite includes_refl. reflexivity.
Qed.

Lemma compare_self_witness :
  compare DateOfBirth (Some (lit "01/02/1990")) (lit "01/02/1990") = true.
Proof.
  apply (compare_self DateOfBirth (lit "01/02/1990")). reflexivity.
Defined.

Lemma toLowerChar_idem (c : ascii) :
  toLowerChar (toLowerChar c) = toLowerChar c.
Proof. destruct c as [[] [] [] [] [] [] [] []]; reflexivity. Qed.

Lemma toLowerChar_space (c : ascii) :
  Ascii.eqb (toLowerChar c) " " = Ascii.eqb c " ".
Proof. destruct c as [[] [] [] [] [] [] [] []]; reflexivity. Qed.

Lemma includes_space_existsb (s : str) :
  includes s (lit " ") = existsb (fun c => Ascii.eqb c " ") s.
Proof.
  induction s as [|c s IH]; [reflexivity|].
  cbn [includes existsb]. rewrite IH.
  change (lit " ") with [" "%char]. cbn [startsWith].
  rewrite andb_true_r. reflexivity.
Qed.

Lemma toLowerCase_facts (a : str) :
  truthy (toLowerCase a) = truthy a /\
  includes (toLowerCase a) (lit " ") = includes a (lit " ") /\
  normalizeText (toLowerCase a) = normalizeText a.
Proof.
  repeat split.
  - destruct a; reflexivity.
  - rewrite !includes_space_existsb. unfold toLowerCase.
    induction a as [|c a IH]; [reflexivity|]. simpl.
    rewrite toLowerChar_space, IH. reflexivity.
  - unfold normalizeText, toLowerCase. rewrite map_map.
    f_equal. apply map_ext. apply toLowerChar_idem.
Qed.

(** X4: [compareFields] does not look at letter case: lower-casing the
    extracted value, the entered value or both leaves its answer as it is. *)
Theorem compareFields_ignores_case (extracted entered : str) :
  compareFields (Some (toLowerCase extracted)) entered
    = compareFields (Some extracted) entered /\
  compareFields (Some extracted) (toLowerCase entered)
    = compareFields (Some extracted) entered /\
  compareFields (Some (toLowerCase extracted)) (toLowerCase entered)
    = compareFields (Some extracted) entered.
Proof.
  destruct (toLowerCase_facts extracted) as (E1 & E2 & E3).
  destruct (toLowerCase_facts entered) as (N1 & N2 & N3).
  unfold compareFields.
  rewrite E1, E2, E3, N1, N2, N3. auto.
Qed.

(** X5: entries without content pass. When name, ID number and phone number
    were extracted, a form whose name and ID number hold a space and no
    letter or digit, and whose phone number holds no digit, is verified,
    whatever the document says. *)
Theorem blank_entries_verify (extractedData : ExtractedData)
  (nm dob idn ph : str) :
  truthyOpt (name extractedData) = true ->
  truthyOpt (idNumber extractedData) = true ->
  truthyOpt (phoneNumber extractedData) = true ->
  In " "%char nm -> lowerAlnum nm = [] ->
  In " "%char idn -> lowerAlnum idn = [] ->
  truthy ph = true -> digitsOf ph = [] ->
  VerificationResults.overall
    (handleVerify extractedData (FormData.mk nm dob idn ph)) = true.
Proof.
  intros Hn Hi Hp Hnm1 Hnm2 Hid1 Hid2 Hph1 Hph2.
  assert (Hblank : forall e s, truthy e = true -> In " "%char s ->
            lowerAlnum s = [] -> compareFields (Some e) s = true).
  { intros e s He Hs1 Hs2.
    assert (Hs : truthy s = true) by (destruct s; [destruct Hs1|reflexivity]).
    unfold compareFields. rewrite He, Hs. cbn [negb orb].
    apply includes_char in Hs1. change [" "%char] with (lit " ") in Hs1.
    rewrite Hs1, orb_true_r, !normalizeText_spec, Hs2, includes_nil.
    reflexivity. }
  unfold handleVerify. cbn [FormData.name FormData.idNumber
    FormData.phoneNumber FormData.dateOfBirth].
  destruct (name extractedData) as [en|]; [|discriminate].
  destruct (idNumber extractedData) as [ei|]; [|discriminate].
  destruct (phoneNumber extractedData) as [ep|]; [|discriminate].
  simpl in Hn, Hi, Hp.
  rewrite (Hblank en nm Hn Hnm1 Hnm2), (Hblank ei idn Hi Hid1 Hid2).
  assert (Hphone : comparePhones (Some ep) ph = true).
  { unfold comparePhones. rewrite Hp, Hph1. cbn [negb orb].
    rewrite !normalizePhone_spec, Hph2, includes_nil. reflexivity. }
  rewrite Hphone.
  destruct (compareDates _ _); reflexivity.
Qed.

Lemma blank_entries_verify_witness :
  VerificationResults.overall
    (handleVerify
       (mkExtractedData (Some (lit "Ravi Kumar")) (Some (lit "01/02/1990"))
          (Some (lit "123456789123")) (Some (lit "9876543210")))
       (FormData.mk (lit " ") (lit "2000-01-01") (lit " ") (lit "-"))) = true.
Proof.
  apply (blank_entries_verify
           (mkExtractedData (Some (lit "Ravi Kumar")) (Some (lit "01/02/1990"))
              (Some (lit "123456789123")) (Some (lit "9876543210")))
           (lit " ") (lit "2000-01-01") (lit " ") (lit "-"));
    try reflexivity; simpl; auto.
Defined.

Lemma compare_true_present (f : FieldName) (o : option str) (s : str) :
  compare f o s = true -> truthyOpt o = true /\ truthy s = true.
Proof.
  destruct o as [e|]; [|destruct f; discriminate].
  destruct f; simpl; unfold compareFields, compareDates, comparePhones;
    destruct (truthy e), (truthy s); simpl; intros H;
    try discriminate; auto.
Qed.

(** X6: the verdict can only be positive when at least three of the four
    fields were extracted and at least three were entered. *)
Theorem overall_needs_three_present (extractedData : ExtractedData)
  (formData : FormData.t) :
  VerificationResults.overall (handleVerify extractedData formData) = true ->
  3 <= countTrue [ truthyOpt (name extractedData);
                   truthyOpt (dateOfBirth extractedData);
                   truthyOpt (idNumber extractedData);
                   truthyOpt (phoneNumber extractedData) ] /\
  3 <= countTrue [ truthy (FormData.name formData);
                   truthy (FormData.dateOfBirth formData);
                   truthy (FormData.idNumber formData);
                   truthy (FormData.phoneNumber formData) ].
Proof.
  unfold handleVerify.
  pose proof (compare_true_present Name (name extractedData)
                (FormData.name formData)) as H1.
  pose proof (compare_true_present DateOfBirth (dateOfBirth extractedData)
                (FormData.dateOfBirth formData)) as H2.
  pose proof (compare_true_present IdNumber (idNumber extractedData)
                (FormData.idNumber formData)) as H3.
  pose proof (compare_true_present PhoneNumber (phoneNumber extractedData)
                (FormData.phoneNumber formData)) as H4.
  simpl in H1, H2, H3, H4.
  destruct (compareFields (name extractedData) _);
    destruct (compareDates _ _);
    destruct (compareFields (idNumber extractedData) _);
    destruct (comparePhones _ _);
    intros H; try discriminate H;
    repeat match goal with
           | Hx : true = true -> _ |- _ =>
               destruct (Hx eq_refl) as [-> ->]; clear Hx
           end;
    unfold countTrue; simpl;
    repeat match goal with
           | |- context [truthyOpt ?o] => destruct (truthyOpt o)
           | |- context [truthy ?o] => destruct (truthy o)
           end; simpl; split; lia.
Qed.

Lemma overall_needs_three_present_witness :
  3 <= countTrue [ truthyOpt (Some (lit "Ravi Kumar"));
                   truthyOpt (Some (lit "01/02/1990"));
                   truthyOpt (Some (lit "123456789123"));
                   truthyOpt None ] /\
  3 <= countTrue [ truthy (lit "ravi kumar"); truthy (lit "01-02-1990");
                   truthy (lit "1234 5678 9123"); truthy [] ].
Proof.
  apply (overall_needs_three_present
           (mkExtractedData (Some (lit "Ravi Kumar")) (Some (lit "01/02/1990"))
              (Some (lit "123456789123")) None)
           (FormData.mk (lit "ravi kumar") (lit "01-02-1990")
              (lit "1234 5678 9123") [])).
  vm_compute. reflexivity.
Defined.

(** X7: the summary of a verdict recounts the matches without the overall
    flag, finds the count of [handleVerify] again, and is green exactly for
    three or four matches, amber exactly for two, red for one or none. *)
Theorem status_color_of_verdict (extractedData : ExtractedData)
  (formData : FormData.t) :
  let r := handleVerify extractedData formData in
  let n := countTrue [ VerificationResults.name r;
                       VerificationResults.dateOfBirth r;
                       VerificationResults.idNumber r;
                       VerificationResults.phoneNumber r ] in
  VerificationResult.matchCount r = n /\
  (VerificationResult.getOverallStatusColor r = VerificationResult.success
   <-> 3 <= n) /\
  (VerificationResult.getOverallStatusColor r = VerificationResult.warning
   <-> n = 2) /\
  (VerificationResult.getOverallStatusColor r = VerificationResult.destructive
   <-> n <= 1).
Proof.
  unfold handleVerify.
  destruct (compareFields (name extractedData) _);
    destruct (compareDates _ _);
    destruct (compareFields (idNumber extractedData) _);
    destruct (comparePhones _ _);
    cbv; repeat split; intros; try discriminate; try lia; auto.
Qed.

(** * Further properties of the extraction *)

(** In a regex of the form [\b(r)\b] the capture is the whole match. *)
Lemma matchAt_wordGroup r i g pre suf x :
  matchAt (mkRegExp (rseq [RWordB; RGroup r; RWordB]) i g) pre suf = Some x ->
  m1 x = Some (m0 x) /\
  exists post, suf = m0 x ++ post /\ Matches i r pre (m0 x) post.
Proof.
  unfold matchAt. cbn [rseq source ignoreCase m before after cap1].
  destruct (xorb (headIsWord pre) (headIsWord suf)); [|discriminate].
  destruct (m i r _ _) as [st'|] eqn:Hm; [|discriminate].
  intros H. injection H as <-.
  apply m_sound in Hm. cbn [before after cap1] in Hm.
  destruct Hm as (w & post & cp & -> & Hw & Hk & _).
  destruct (xorb _ _); [|discriminate].
  injection Hk as <-. cbn [m0 m1 after cap1].
  rewrite firstn_app_exact. eauto.
Qed.

Lemma splitBy_app_sep sep w c rest :
  (forall x, In x w -> sep x = false) -> sep c = true ->
  splitBy sep (w ++ c :: rest) = w :: splitBy sep rest.
Proof.
  intros Hw Hc. induction w as [|x w IH]; simpl.
  - rewrite Hc. reflexivity.
  - rewrite (Hw x (or_introl eq_refl)), IH; [reflexivity|].
    intros y Hy. apply Hw. right. exact Hy.
Qed.

Lemma digit_not_dateSep (c : ascii) :
  isDigit c = true -> cmem false dateSep c = false.
Proof. destruct c as [[] [] [] [] [] [] [] []]; intros H; try discriminate H; reflexivity. Qed.

Lemma digit_not_space (c : ascii) : isDigit c = true -> isSpace c = false.
Proof. destruct c as [[] [] [] [] [] [] [] []]; intros H; try discriminate H; reflexivity. Qed.

Lemma parseInt_digits (y : str) :
  y <> [] -> Forall (fun c => isDigit c = true) y ->
  parseInt y = Some (Z.of_nat (digitsValue 0 y)).
Proof.
  intros Hne Hd. destruct y as [|c y]; [contradiction|].
  inversion Hd as [|? ? Hc Hy]; subst. clear Hd Hne Hy.
  destruct c as [[] [] [] [] [] [] [] []]; try discriminate Hc;
    reflexivity.
Qed.

Lemma birthYear_bounds (n : nat) :
  birthYear (Some (Z.of_nat n)) = true -> 1900 <= n <= 2010.
Proof.
  unfold birthYear. rewrite andb_true_iff, !Z.leb_le. lia.
Qed.

(** What the two dated patterns capture, and [acceptDate] accepts. *)
Lemma dated_pattern_shape (sep : ascii) i g pre suf x v :
  sep = "/"%char \/ sep = "-"%char ->
  matchAt
    (mkRegExp
       (rseq [RWordB;
              RGroup (rseq [RRep 1 (Some 2) digit; rchar sep;
                            RRep 1 (Some 2) digit; rchar sep; rtimes 4 digit]);
              RWordB]) i g) pre suf = Some x ->
  forall gr, m1 x = Some gr -> acceptDate gr = Some v -> DateShape v.
Proof.
  intros Hsep Hm gr Hgr Ha.
  apply matchAt_wordGroup in Hm. destruct Hm as (Hcap & post & _ & Hw).
  rewrite Hcap in Hgr. injection Hgr as <-.
  cbn [rseq Matches rchar rtimes] in Hw.
  destruct Hw as (d & w1 & Ex & Hd & s1 & w2 & -> & (c1 & -> & Hc1) &
                  mo & w3 & -> & Hmo & s2 & y & -> & (c2 & -> & Hc2) & Hy).
  apply (Matches_rep_class i 1 (Some 2) CDigit) in Hd.
  destruct Hd as (Hd1 & Hd2 & Hdd).
  apply (Matches_rep_class i 1 (Some 2) CDigit) in Hmo.
  destruct Hmo as (Hm1 & Hm2 & Hmd).
  apply (Matches_rep_class i 4 (Some 4) CDigit) in Hy.
  destruct Hy as (Hy1 & Hy2 & Hyd).
  cbn [cmem] in Hc1, Hc2. simpl in Hd2, Hm2, Hy2.
  assert (E1 : c1 = sep).
  { destruct (i); [|apply Ascii.eqb_eq in Hc1; congruence].
    destruct Hsep as [->| ->];
      destruct c1 as [[] [] [] [] [] [] [] []]; try discriminate Hc1;
      reflexivity. }
  assert (E2 : c2 = sep).
  { destruct (i); [|apply Ascii.eqb_eq in Hc2; congruence].
    destruct Hsep as [->| ->];
      destruct c2 as [[] [] [] [] [] [] [] []]; try discriminate Hc2;
      reflexivity. }
  subst c1 c2.
  assert (Hsepc : cmem false dateSep sep = true).
  { destruct Hsep as [->| ->]; reflexivity. }
  cbn [app] in Ex.
  unfold acceptDate in Ha.
  destruct (includes (m0 x) (lit "/") || includes (m0 x) (lit "-")) eqn:Hinc.
  - rewrite Ex in Ha.
    rewrite (splitBy_app_sep _ d sep), (splitBy_app_sep _ mo sep) in Ha;
      try exact Hsepc;
      try (intros c Hc; apply digit_not_dateSep;
           revert c Hc; apply Forall_forall; assumption).
    rewrite splitBy_no_sep in Ha
      by (intros c Hc; apply digit_not_dateSep;
          revert c Hc; apply Forall_forall; assumption).
    cbn [length Nat.eqb nth] in Ha.
    destruct (birthYear (parseInt y)) eqn:Hb; [|discriminate].
    injection Ha as <-.
    rewrite parseInt_digits in Hb; [|intros ->; simpl in Hy1; lia|exact Hyd].
    apply birthYear_bounds in Hb.
    exists d, mo, y, sep. repeat split; try assumption; try lia.
    apply Forall_app. split; [exact Hdd|].
    apply Forall_app. split; assumption.
  - exfalso. apply orb_false_iff in Hinc. destruct Hinc as [H1 H2].
    change (lit "/") with ["/"%char] in H1.
    change (lit "-") with ["-"%char] in H2.
    assert (Hin : In sep (m0 x)) by (rewrite Ex; apply in_elt).
    destruct Hsep as [->| ->].
    + apply includes_char in Hin. congruence.
    + apply includes_char in Hin. congruence.
Qed.

Lemma scanPatterns_third_throws accept t p1 p2 p3 rest cur d :
  global p1 = true -> global p2 = true -> global p3 = false ->
  scanPatterns accept t (p1 :: p2 :: p3 :: rest) cur = Normal d ->
  truthyOpt d = true /\
  (d = cur \/
   exists p, (p = p1 \/ p = p2) /\
             firstAccepted accept (matchesFrom p 0 [] t) = d).
Proof.
  intros G1 G2 G3. cbn [scanPatterns]. unfold matchAll.
  rewrite G1, G2, G3. cbn [bind].
  destruct (firstAccepted accept (matchesFrom p1 0 [] t)) as [v1|] eqn:F1.
  - destruct (truthyOpt (Some v1)) eqn:T1.
    + intros H. injection H as <-. split; [exact T1|]. right. eauto.
    + destruct (firstAccepted accept (matchesFrom p2 0 [] t)) as [v2|] eqn:F2.
      * destruct (truthyOpt (Some v2)) eqn:T2; [|discriminate].
        intros H. injection H as <-. split; [exact T2|]. right. eauto.
      * rewrite T1. discriminate.
  - destruct (truthyOpt cur) eqn:T0.
    + intros H. injection H as <-. auto.
    + destruct (firstAccepted accept (matchesFrom p2 0 [] t)) as [v2|] eqn:F2.
      * destruct (truthyOpt (Some v2)) eqn:T2; [|discriminate].
        intros H. injection H as <-. split; [exact T2|]. right. eauto.
      * rewrite T0. discriminate.
Qed.

Lemma extracted_date text data :
  extractDataFromText text = Normal data ->
  exists v, dateOfBirth data = Some v /\ DateShape v /\
            Substring v (cleanOCRText text).
Proof.
  intros H. apply extract_fields in H. destruct H as (_ & _ & Hd & _).
  unfold patterns_dateOfBirth in Hd.
  apply scanPatterns_third_throws in Hd; try reflexivity.
  destruct Hd as (Ht & [Hd | (p & Hp & Hf)]).
  { rewrite Hd in Ht. simpl in Ht. discriminate. }
  destruct (dateOfBirth data) as [v|]; [|discriminate].
  exists v. split; [reflexivity|].
  apply firstAccepted_sound in Hf. destruct Hf as (x & gr & Hx & Hgr & Ha).
  apply matchesFrom_matchAt in Hx.
  destruct Hx as (pre' & suf' & Hm & a & Hs).
  assert (Hv : v = m0 x /\ exists post, suf' = m0 x ++ post).
  { assert (Hg : acceptDate gr = Some v -> v = gr).
    { unfold acceptDate. intros E.
      repeat match type of E with
             | (if ?b then _ else _) = _ => destruct b
             end; congruence. }
    specialize (Hg Ha). subst gr.
    destruct Hp as [-> | ->]; apply matchAt_wordGroup in Hm;
      destruct Hm as (Hcap & post & Hsuf & _);
      rewrite Hcap in Hgr; injection Hgr as Hgr;
      (split; [symmetry; exact Hgr | exists post; exact Hsuf]). }
  destruct Hv as (Hv & post & Hsuf).
  split.
  - destruct Hp as [-> | ->].
    + eapply (dated_pattern_shape "/"); eauto.
    + eapply (dated_pattern_shape "-"); eauto.
  - exists a, post. rewrite Hs, Hsuf, Hv. reflexivity.
Qed.

(** X8: whenever extraction returns, it returns a date of birth: one that
    stands in the cleaned text, with day and month of one or two digits, a
    four-digit year from 1900 to 2010 and one separator, [/] or [-], used
    twice. A text without such a date makes extraction throw. *)
Theorem extraction_returns_a_date (text : str) (data : ExtractedData) :
  extractDataFromText text = Normal data ->
  exists v, dateOfBirth data = Some v /\ DateShape v /\
            Substring v (cleanOCRText text).
Proof. apply extracted_date. Qed.

Lemma extraction_returns_a_date_witness :
  exists v,
    dateOfBirth
      (mkExtractedData (Some (lit "Ravi Kumar")) (Some (lit "01/02/1990"))
         (Some (lit "123456789123")) None) = Some v /\
    DateShape v /\
    Substring v (cleanOCRText (lit "Ravi Kumar 1234 5678 9123 DOB 01/02/1990")).
Proof.
  apply (extraction_returns_a_date
           (lit "Ravi Kumar 1234 5678 9123 DOB 01/02/1990")
           (mkExtractedData (Some (lit "Ravi Kumar")) (Some (lit "01/02/1990"))
              (Some (lit "123456789123")) None)).
  vm_compute. reflexivity.
Defined.

Lemma DateShape_truthy v : DateShape v -> truthy v = true.
Proof.
  intros (d & mo & y & sep & -> & _ & Hd & _).
  destruct d; [simpl in Hd; lia | reflexivity].
Qed.

Lemma digitsOf_digits (w : str) :
  Forall (fun c => isDigit c = true) w -> digitsOf w = w.
Proof.
  induction 1 as [|c w Hc Hw IH]; [reflexivity|].
  unfold digitsOf in *. simpl. rewrite Hc, IH. reflexivity.
Qed.

Lemma digitsOf_app (a b : str) : digitsOf (a ++ b) = digitsOf a ++ digitsOf b.
Proof. apply filter_app. Qed.

Lemma digit_value (c : ascii) : isDigit c = true -> code c - 48 <= 9.
Proof.
  unfold isDigit, inRange. rewrite andb_true_iff, !Nat.leb_le. lia.
Qed.

Lemma app_eq_length (a b c d : str) :
  length a = length c -> a ++ b = c ++ d -> a = c /\ b = d.
Proof.
  revert c. induction a as [|x a IH]; intros [|y c] Hl E;
    try discriminate Hl; simpl in *.
  - auto.
  - injection E as -> E. injection Hl as Hl.
    destruct (IH c Hl E) as [-> ->]. auto.
Qed.

(** The digits of an extracted date differ from those of any ISO date. *)
Lemma DateShape_not_iso v entered :
  DateShape v -> IsoDate entered -> digitsOf v <> digitsOf entered.
Proof.
  intros (d & mo & y & sep & -> & Hsep & Hd & Hmo & Hy & Hdig & Hyear)
         (Y & M & D & -> & HY & HM & HD & Hdig' & Hmonth) E.
  apply Forall_app in Hdig. destruct Hdig as [Hdd Hdig].
  apply Forall_app in Hdig. destruct Hdig as [Hmd Hyd].
  apply Forall_app in Hdig'. destruct Hdig' as [HYd Hdig'].
  apply Forall_app in Hdig'. destruct Hdig' as [HMd HDd].
  assert (Hs : digitsOf [sep] = []) by (destruct Hsep as [->| ->]; reflexivity).
  change (d ++ sep :: mo ++ sep :: y)
    with (d ++ [sep] ++ mo ++ [sep] ++ y) in E.
  change (Y ++ "-"%char :: M ++ "-"%char :: D)
    with (Y ++ ["-"%char] ++ M ++ ["-"%char] ++ D) in E.
  rewrite !digitsOf_app, Hs in E.
  change (digitsOf ["-"%char]) with (@nil ascii) in E.
  rewrite !digitsOf_digits in E by assumption.
  cbn [app] in E.
  assert (El : length (d ++ mo ++ y) = length (Y ++ M ++ D)) by (rewrite E; reflexivity).
  rewrite !length_app in El.
  assert (E' : (d ++ mo) ++ y = Y ++ (M ++ D)) by (rewrite <- app_assoc; exact E).
  apply app_eq_length in E'.
  - destruct E' as [_ Ey]. subst y.
    destruct M as [|m1 [|m2 [|? ?]]]; try discriminate HM.
    destruct D as [|d1 [|d2 [|? ?]]]; try discriminate HD.
    inversion HMd as [|? ? Hm1 HM']; subst.
    inversion HM' as [|? ? Hm2 _]; subst.
    inversion HDd as [|? ? Hd1 HD']; subst.
    inversion HD' as [|? ? Hd2 _]; subst.
    cbn [app digitsValue] in Hyear, Hmonth.
    rewrite Hm1, Hm2 in Hmonth. rewrite Hm1, Hm2, Hd1, Hd2 in Hyear.
    apply digit_value in Hm1, Hm2, Hd1, Hd2. lia.
  - rewrite length_app. lia.
Qed.

Lemma compareDates_iso_false v entered :
  DateShape v -> IsoDate entered -> compareDates (Some v) entered = false.
Proof.
  intros Hv He.
  assert (Hne : truthy entered = true).
  { destruct He as (Y & M & D & -> & HY & _). destruct Y; [discriminate HY|reflexivity]. }
  unfold compareDates. rewrite (DateShape_truthy v Hv), Hne. cbn [negb orb].
  rewrite !normalizeDate_spec.
  destruct (strEq (digitsOf v) (digitsOf entered)) eqn:E; [|reflexivity].
  apply strEq_true_iff in E. exfalso.
  eapply DateShape_not_iso; eassumption.
Qed.

(** X9: the date field never matches through the form. The form's date
    input gives [YYYY-MM-DD] with a month from 01 to 12, the extractor a
    date with the year last; their digits always differ, so the verdict is
    positive only when name, ID number and phone number all match, and it
    is negative whenever the phone number was not extracted or not
    entered. *)
Theorem iso_date_never_matches (text : str) (data : ExtractedData)
  (formData : FormData.t) :
  extractDataFromText text = Normal data ->
  IsoDate (FormData.dateOfBirth formData) ->
  let r := handleVerify data formData in
  VerificationResults.dateOfBirth r = false /\
  (VerificationResults.overall r = true <->
   VerificationResults.name r = true /\
   VerificationResults.idNumber r = true /\
   VerificationResults.phoneNumber r = true) /\
  (truthyOpt (phoneNumber data) = false \/
   truthy (FormData.phoneNumber formData) = false ->
   VerificationResults.overall r = false).
Proof.
  intros H Hiso. apply extracted_date in H.
  destruct H as (v & Hv & Hshape & _).
  assert (H3 : truthyOpt (phoneNumber data) = false \/
               truthy (FormData.phoneNumber formData) = false ->
               comparePhones (phoneNumber data) (FormData.phoneNumber formData)
               = false).
  { intros Hm.
    destruct (comparePhones _ _) eqn:E; [|reflexivity].
    apply (compare_true_present PhoneNumber) in E. destruct E as [E1 E2].
    destruct Hm as [Hm|Hm]; rewrite Hm in *; discriminate. }
  unfold handleVerify. rewrite Hv.
  rewrite (compareDates_iso_false v _ Hshape Hiso).
  split; [reflexivity|]. split.
  - destruct (compareFields (name data) _);
      destruct (compareFields (idNumber data) _);
      destruct (comparePhones _ _);
      cbv; repeat split; intros; try discriminate; auto;
      repeat match goal with
             | Hx : _ /\ _ |- _ => destruct Hx
             end; discriminate.
  - intros Hm. rewrite (H3 Hm).
    destruct (compareFields (name data) _);
      destruct (compareFields (idNumber data) _); reflexivity.
Qed.

Lemma iso_date_never_matches_witness :
  let r :=
    handleVerify
      (mkExtractedData (Some (lit "Ravi Kumar")) (Some (lit "01/02/1990"))
         (Some (lit "123456789123")) None)
      (FormData.mk (lit "Ravi Kumar") (lit "1990-02-01")
         (lit "123456789123") (lit "9876543210")) in
  VerificationResults.dateOfBirth r = false /\
  (VerificationResults.overall r = true <->
   VerificationResults.name r = true /\
   VerificationResults.idNumber r = true /\
   VerificationResults.phoneNumber r = true) /\
  (truthyOpt
     (phoneNumber
        (mkExtractedData (Some (lit "Ravi Kumar")) (Some (lit "01/02/1990"))
           (Some (lit "123456789123")) None)) = false \/
   truthy
     (FormData.phoneNumber
        (FormData.mk (lit "Ravi Kumar") (lit "1990-02-01")
           (lit "123456789123") (lit "9876543210"))) = false ->
   VerificationResults.overall r = false).
Proof.
  apply (iso_date_never_matches
           (lit "Ravi Kumar 1234 5678 9123 DOB 01/02/1990")).
  - vm_compute. reflexivity.
  - exists (lit "1990"), (lit "02"), (lit "01"). simpl.
    repeat split; try lia. repeat constructor.
Defined.

Lemma hasData_of_date data v :
  dateOfBirth data = Some v -> truthy v = true -> hasData data = true.
Proof.
  intros Hd Hv. unfold hasData, extractedValues.
  apply existsb_exists. exists v. split.
  - apply in_flat_map. exists (Some v). split; [|left; reflexivity].
    rewrite <- Hd. simpl. auto.
  - rewrite Hv. destruct v; [discriminate Hv|reflexivity].
Qed.

(** X10: an upload never ends in the no-data notice: either extraction
    throws, which ends in the processing-error notice, or it returns a date
    of birth. And [onDocumentProcessed] is reached only for a file whose
    type starts with [image/], of at most 10 MiB, whose text was recognized
    and extracted. *)
Theorem upload_outcomes (file : File.t) (recognized : completion str) :
  handleFileSelect file recognized <> NoDataFound /\
  (forall data,
     handleFileSelect file recognized = DocumentProcessed data ->
     startsWith (File.type file) (lit "image/") = true /\
     (File.size file <= 10485760)%N /\
     exists text, recognized = Normal text /\
                  extractDataFromText text = Normal data).
Proof.
  unfold handleFileSelect, processDocument.
  destruct (startsWith (File.type file) (lit "image/")); cbn [negb].
  2: { split; [discriminate | intros data H; discriminate H]. }
  destruct (10 * 1024 * 1024 <? File.size file)%N eqn:Hs.
  { split; [discriminate | intros data H; discriminate H]. }
  apply N.ltb_ge in Hs. change (10 * 1024 * 1024)%N with 10485760%N in Hs.
  destruct recognized as [text|e].
  2: { split; [discriminate | intros data H; discriminate H]. }
  destruct (extractDataFromText text) as [d|e] eqn:He.
  2: { split; [discriminate | intros data H; discriminate H]. }
  destruct (extracted_date _ _ He) as (v & Hv & Hshape & _).
  rewrite (hasData_of_date d v Hv (DateShape_truthy v Hshape)). cbn [negb].
  split; [discriminate|].
  intros data H. injection H as <-. repeat split; [exact Hs|]. eauto.
Qed.

Lemma upload_outcomes_witness :
  handleFileSelect (File.mk (lit "image/png") 2048)
    (Normal (lit "Ravi Kumar 1234 5678 9123 DOB 01/02/1990")) <> NoDataFound /\
  (forall data,
     handleFileSelect (File.mk (lit "image/png") 2048)
       (Normal (lit "Ravi Kumar 1234 5678 9123 DOB 01/02/1990"))
     = DocumentProcessed data ->
     startsWith (File.type (File.mk (lit "image/png") 2048)) (lit "image/")
     = true /\
     (File.size (File.mk (lit "image/png") 2048) <= 10485760)%N /\
     exists text,
       Normal (lit "Ravi Kumar 1234 5678 9123 DOB 01/02/1990") = Normal text /\
       extractDataFromText text = Normal data).
Proof.
  exact (upload_outcomes (File.mk (lit "image/png") 2048)
           (Normal (lit "Ravi Kumar 1234 5678 9123 DOB 01/02/1990"))).
Defined.

(** * Further properties of the cleaned text and of the name *)

Lemma replace_class_In cls rep s c :
  In c (replaceAll (mkRegExp (RClass cls) false true) rep s) ->
  In c rep \/ (In c s /\ cmem false cls c = false).
Proof.
  unfold replaceAll. rewrite replaceFrom_class. intros H.
  apply in_flat_map in H. destruct H as (c0 & Hc0 & Hin).
  destruct (cmem false cls c0) eqn:Hm.
  - left. exact Hin.
  - destruct Hin as [<-|[]]. right. auto.
Qed.

Lemma cleanOCRText_In text c :
  In c (cleanOCRText text) ->
  In c (replaceAll re_zero (lit "0")
          (replaceAll re_bar (lit "I")
             (replaceAll re_whitespace (lit " ") text))).
Proof.
  unfold cleanOCRText. intros H. apply incl_trim in H.
  apply replace_blankLines_incl in H; [exact H|].
  apply PlainSpaces_no_LF.
  apply replace_class_plain.
  - intros x [<-|[]]. discriminate.
  - apply replace_class_plain.
    + intros x [<-|[]]. discriminate.
    + apply replace_whitespace_plain.
Qed.

Lemma cleanOCRText_no_bar_no_O text c :
  In c (cleanOCRText text) -> c <> "|"%char /\ c <> "O"%char.
Proof.
  intros H. apply cleanOCRText_In in H.
  apply replace_class_In in H. destruct H as [[<-|[]] | [H Hc]].
  - split; discriminate.
  - split.
    + intros ->. apply replace_class_In in H.
      destruct H as [[H|[]] | [_ H]]; discriminate H.
    + intros ->. discriminate Hc.
Qed.

(** X11: the cleaned text holds no vertical bar, no capital letter O and no
    white space other than the plain space: a bar has become the letter I,
    a capital O the digit 0, and tabs and line breaks spaces. *)
Theorem cleanOCRText_alphabet (text : str) (c : ascii) :
  In c (cleanOCRText text) ->
  c <> "|"%char /\ c <> "O"%char /\ (isSpace c = true -> c = " "%char).
Proof.
  intros H. destruct (cleanOCRText_no_bar_no_O text c H) as [H1 H2].
  repeat split; try assumption.
  intros Hs. exact (cleanOCRText_plain text c H Hs).
Qed.

Lemma cleanOCRText_alphabet_witness :
  "0"%char <> "|"%char /\ "0"%char <> "O"%char /\
  (isSpace "0" = true -> "0"%char = " "%char).
Proof.
  apply (cleanOCRText_alphabet (lit "O|") "0"%char).
  vm_compute. auto.
Defined.

Lemma In_dropWhile p c s : In c s -> p c = false -> In c (dropWhile p s).
Proof.
  intros Hin Hp. induction s as [|x s IH]; [destruct Hin|].
  simpl. destruct (p x) eqn:Hx.
  - destruct Hin as [->|Hin]; [congruence | auto].
  - exact Hin.
Qed.

Lemma In_trim c s : In c s -> isSpace c = false -> In c (trim s).
Proof.
  intros Hin Hc. unfold trim. apply -> in_rev.
  apply In_dropWhile; [|exact Hc]. apply -> in_rev.
  apply In_dropWhile; assumption.
Qed.

Lemma search_class_In cls i g c : forall s pre,
  In c s -> cmem i cls c = true ->
  search (mkRegExp (RClass cls) i g) pre s <> None.
Proof.
  induction s as [|x s IH]; intros pre Hin Hc; [destruct Hin|].
  cbn [search]. rewrite matchAt_class.
  destruct (cmem i cls x) eqn:Hx; [discriminate|].
  destruct Hin as [->|Hin]; [congruence|].
  apply IH; assumption.
Qed.

Lemma nameLines_digit_line line :
  test re_anyDigit line = true -> nameLines [line] None = None.
Proof.
  intros H. cbn [nameLines truthyOpt]. rewrite H.
  destruct (isHeaderText _); reflexivity.
Qed.

Lemma DateShape_has_digit v :
  DateShape v -> exists c, In c v /\ isDigit c = true.
Proof.
  intros (d & mo & y & sep & -> & _ & Hd & _ & _ & Hdig & _).
  destruct d as [|c d]; [simpl in Hd; lia|].
  exists c. split; [left; reflexivity|].
  inversion Hdig; assumption.
Qed.

Lemma line_pass_finds_nothing text data :
  extractDataFromText text = Normal data ->
  nameLines (linesOf (cleanOCRText text)) None = None.
Proof.
  intros H. apply extracted_date in H.
  destruct H as (v & _ & Hshape & (a & b & Hsub)).
  destruct (DateShape_has_digit v Hshape) as (c & Hc & Hd).
  rewrite linesOf_cleanOCRText. cbn [filter].
  destruct (2 <? _); [|reflexivity].
  apply nameLines_digit_line.
  unfold test, exec.
  destruct (search re_anyDigit [] (trim (cleanOCRText text))) eqn:Hs;
    [reflexivity|].
  exfalso. revert Hs. apply (search_class_In CDigit false false c).
  - apply In_trim; [|apply digit_not_space; exact Hd].
    rewrite Hsub. apply in_or_app. right. apply in_or_app. left. exact Hc.
  - exact Hd.
Qed.

(** X12: the line pass never yields the name. Whenever extraction returns,
    the one line of the cleaned text holds the digits of the date of birth
    and is skipped as a line with numbers; the name returned is the one of
    the full-text pass. *)
Theorem name_comes_from_full_text (text : str) (data : ExtractedData) :
  extractDataFromText text = Normal data ->
  nameLines (linesOf (cleanOCRText text)) None = None /\
  name data = fullTextName (cleanOCRText text) None.
Proof.
  intros H. split; [eapply line_pass_finds_nothing; exact H|].
  pose proof (line_pass_finds_nothing _ _ H) as Hl.
  apply extract_fields in H. destruct H as (_ & _ & _ & H).
  rewrite Hl in H. symmetry. exact H.
Qed.

Lemma name_comes_from_full_text_witness :
  nameLines
    (linesOf (cleanOCRText (lit "Ravi Kumar 1234 5678 9123 DOB 01/02/1990")))
    None = None /\
  name
    (mkExtractedData (Some (lit "Ravi Kumar")) (Some (lit "01/02/1990"))
       (Some (lit "123456789123")) None)
  = fullTextName
      (cleanOCRText (lit "Ravi Kumar 1234 5678 9123 DOB 01/02/1990")) None.
Proof.
  apply (name_comes_from_full_text
           (lit "Ravi Kumar 1234 5678 9123 DOB 01/02/1990")).
  vm_compute. reflexivity.
Defined.

Lemma replace_class_id cls rep s :
  (forall c, In c s -> cmem false cls c = false) ->
  replaceAll (mkRegExp (RClass cls) false true) rep s = s.
Proof.
  intros H. unfold replaceAll. rewrite replaceFrom_class.
  induction s as [|c s IH]; [reflexivity|].
  simpl. rewrite (H c (or_introl eq_refl)), IH; [reflexivity|].
  intros x Hx. apply H. right. exact Hx.
Qed.

Lemma fullText_is_cleaned text :
  replaceAll re_newline (lit " ") (cleanOCRText text) = cleanOCRText text.
Proof.
  apply replace_class_id. intros c Hc. cbn [cmem].
  destruct (Ascii.eqb LF c) eqn:E; [|reflexivity].
  apply Ascii.eqb_eq in E. subst c. exfalso. revert Hc.
  apply PlainSpaces_no_LF. apply cleanOCRText_plain.
Qed.

Lemma firstValidName_valid : forall l n,
  firstValidName l = Some n ->
  In n l /\ length n <= 35 /\ isHeaderText (toLowerCase n) = false.
Proof.
  induction l as [|x l IH]; intros n H; cbn [firstValidName] in H;
    [discriminate|].
  destruct (negb (isHeaderText (toLowerCase x)) && (4 <=? length x)
            && (length x <=? 35)) eqn:Hv.
  - injection H as <-.
    apply andb_true_iff in Hv. destruct Hv as [Hv Hl].
    apply andb_true_iff in Hv. destruct Hv as [Hh _].
    apply Nat.leb_le in Hl. apply negb_true_iff in Hh.
    repeat split; [left; reflexivity | exact Hl | exact Hh].
  - apply IH in H. destruct H as (? & ? & ?). repeat split; auto.
    right. assumption.
Qed.

Lemma longWord_long pre w post :
  Matches false longWord pre w post -> LongProperWord w.
Proof.
  intros H. split; [eapply longWord_shape; exact H|].
  destruct H as (w1 & w2 & -> & (c & -> & _) & Hw2).
  apply (Matches_rep_class false 2 None caz) in Hw2.
  destruct Hw2 as (Hl & _). simpl. lia.
Qed.

Lemma letter_not_space (c : ascii) :
  isUpper c = true \/ isLower c = true -> Ascii.eqb " " c = false.
Proof.
  destruct c as [[] [] [] [] [] [] [] []]; intros [H|H];
    try discriminate H; reflexivity.
Qed.

Lemma ProperWord_no_space w c :
  ProperWord w -> In c w -> Ascii.eqb " " c = false.
Proof.
  intros (x & cs & -> & Hx & _ & Hcs) [<-|Hin].
  - apply letter_not_space. left. exact Hx.
  - apply letter_not_space. right.
    rewrite Forall_forall in Hcs. apply Hcs. exact Hin.
Qed.

Lemma fullTextName_words pre w post :
  Matches false (source re_fullTextName) pre w post ->
  PlainSpaces w ->
  2 <= length (splitBy (Ascii.eqb " ") w) <= 3 /\
  Forall LongProperWord (splitBy (Ascii.eqb " ") w).
Proof.
  cbn [re_fullTextName source rseq Matches ropt].
  intros (w0 & w1 & -> & (-> & _) & wx & w2 & -> & Hx & (-> & _)) Hp.
  destruct Hx as (wa & w3 & -> & Ha & wc & w4 & -> & (c & -> & Hc) &
                  wb & wo & -> & Hb & ws & -> & _ & Hhi & Hit).
  apply longWord_long in Ha. apply longWord_long in Hb.
  cbn [app] in Hp |- *. rewrite app_nil_r in Hp |- *.
  assert (Ec : c = " "%char).
  { apply Hp; [|exact Hc]. apply in_elt. }
  subst c.
  assert (Hsa : forall x, In x wa -> Ascii.eqb " " x = false)
    by (intros x; apply ProperWord_no_space; apply Ha).
  assert (Hsb : forall x, In x wb -> Ascii.eqb " " x = false)
    by (intros x; apply ProperWord_no_space; apply Hb).
  rewrite splitBy_app_sep; [|exact Hsa|reflexivity].
  destruct ws as [|x [|x' ws]]; [| |simpl in Hhi; lia].
  - cbn [concat]. rewrite app_nil_r, splitBy_no_sep by exact Hsb.
    simpl. split; [lia|].
    constructor; [exact Ha | constructor; [exact Hb | constructor]].
  - cbn [Iter] in Hit. destruct Hit as [Hx _].
    destruct Hx as (w5 & wd & -> & (c' & -> & Hc') & Hd).
    apply longWord_long in Hd.
    cbn [concat app] in Hp |- *. rewrite app_nil_r in Hp. rewrite app_nil_r.
    assert (Ec' : c' = " "%char).
    { apply Hp; [|exact Hc'].
      apply in_or_app. right. right. apply in_elt. }
    subst c'.
    rewrite splitBy_app_sep; [|exact Hsb|reflexivity].
    rewrite splitBy_no_sep
      by (intros x; apply ProperWord_no_space; apply Hd).
    simpl. split; [lia|].
    constructor; [exact Ha|].
    constructor; [exact Hb|].
    constructor; [exact Hd | constructor].
Qed.

Lemma Substring_In t s c : Substring t s -> In c t -> In c s.
Proof.
  intros (a & b & ->) H. apply in_or_app. right. apply in_or_app. left.
  exact H.
Qed.

Lemma fullTextName_found text n :
  fullTextName (cleanOCRText text) None = Some n ->
  Substring n (cleanOCRText text) /\ length n <= 35 /\
  isHeaderText (toLowerCase n) = false /\
  2 <= length (splitBy (Ascii.eqb " ") n) <= 3 /\
  Forall LongProperWord (splitBy (Ascii.eqb " ") n).
Proof.
  unfold fullTextName. cbn [truthyOpt negb]. rewrite fullText_is_cleaned.
  intros H.
  destruct (matchG re_fullTextName _) as [l|] eqn:Hm; [|discriminate].
  destruct (firstValidName l) as [v|] eqn:Hv; [|discriminate].
  injection H as ->. apply firstValidName_valid in Hv.
  destruct Hv as (Hin & Hl & Hh).
  destruct (matchG_In _ _ _ _ Hm Hin) as (x & Hx & ->).
  apply matchesFrom_sound in Hx. destruct Hx as (a & post & Hs & Hw & _).
  assert (Hsub : Substring (m0 x) (cleanOCRText text))
    by (exists a, post; exact Hs).
  repeat split; try assumption; eapply fullTextName_words; try exact Hw;
    intros c Hc; apply (cleanOCRText_plain text);
    eapply Substring_In; eassumption.
Qed.

(** X13: a name that extraction returns stands in the cleaned text, has at
    most 35 characters and holds none of the header phrases; split at its
    spaces it gives two or three words, each an upper-case letter followed
    by at least two lower-case letters. No name part of two letters, no
    fourth word and no capital O is ever returned. *)
Theorem name_two_or_three_long_words (text : str) (data : ExtractedData)
  (n : str) :
  extractDataFromText text = Normal data ->
  name data = Some n ->
  Substring n (cleanOCRText text) /\ length n <= 35 /\
  isHeaderText (toLowerCase n) = false /\
  2 <= length (splitBy (Ascii.eqb " ") n) <= 3 /\
  Forall LongProperWord (splitBy (Ascii.eqb " ") n) /\
  ~ In "O"%char n.
Proof.
  intros H Hn.
  pose proof (line_pass_finds_nothing _ _ H) as Hl.
  apply extract_fields in H. destruct H as (_ & _ & _ & H).
  rewrite Hl, Hn in H. apply fullTextName_found in H.
  destruct H as (Hsub & Hlen & Hh & Hw & Hf).
  repeat split; try assumption; try apply Hw.
  intros Hin. eapply Substring_In in Hin; [|exact Hsub].
  apply cleanOCRText_no_bar_no_O in Hin. destruct Hin as [_ Hin].
  apply Hin. reflexivity.
Qed.

Lemma name_two_or_three_long_words_witness :
  Substring (lit "Ravi Kumar")
    (cleanOCRText (lit "Ravi Kumar 1234 5678 9123 DOB 01/02/1990")) /\
  length (lit "Ravi Kumar") <= 35 /\
  isHeaderText (toLowerCase (lit "Ravi Kumar")) = false /\
  2 <= length (splitBy (Ascii.eqb " ") (lit "Ravi Kumar")) <= 3 /\
  Forall LongProperWord (splitBy (Ascii.eqb " ") (lit "Ravi Kumar")) /\
  ~ In "O"%char (lit "Ravi Kumar").
Proof.
  apply (name_two_or_three_long_words
           (lit "Ravi Kumar 1234 5678 9123 DOB 01/02/1990")
           (mkExtractedData (Some (lit "Ravi Kumar")) (Some (lit "01/02/1990"))
              (Some (lit "123456789123")) None)).
  - vm_compute. reflexivity.
  - reflexivity.
Defined.

(** * Extraction and comparison together *)

Lemma digit_lowerAlnum (c : ascii) :
  isDigit c = true -> toLowerChar c = c /\ isAlnum c = true.
Proof.
  destruct c as [[] [] [] [] [] [] [] []]; intros H; try discriminate H;
    split; reflexivity.
Qed.

Lemma lowerAlnum_digits (v : str) :
  Forall (fun c => isDigit c = true) v -> lowerAlnum v = v.
Proof.
  induction 1 as [|c v Hc Hv IH]; [reflexivity|].
  unfold lowerAlnum, toLowerCase in *. cbn [map filter].
  destruct (digit_lowerAlnum c Hc) as [-> ->]. rewrite IH. reflexivity.
Qed.

Lemma lowerAlnum_truthy (s : str) : lowerAlnum s <> [] -> truthy s = true.
Proof. destruct s; [intros H; contradiction H; reflexivity | reflexivity]. Qed.

Lemma digitsOf_truthy (s : str) : digitsOf s <> [] -> truthy s = true.
Proof. destruct s; [intros H; contradiction H; reflexivity | reflexivity]. Qed.

Lemma extracted_idNumber text data v :
  extractDataFromText text = Normal data -> idNumber data = Some v ->
  length v = 12 /\ Forall (fun c => isDigit c = true) v.
Proof.
  intros H Hv. apply extract_fields in H. destruct H as (Hid & _).
  rewrite Hv in Hid. apply scanPatterns_sound in Hid.
  destruct Hid as [Hid | (g & Hg)]; [discriminate|].
  apply acceptAadhaar_sound in Hg. exact Hg.
Qed.

Lemma extracted_phoneNumber text data v :
  extractDataFromText text = Normal data -> phoneNumber data = Some v ->
  length v = 10 /\ Forall (fun c => isDigit c = true) v.
Proof.
  intros H Hv. apply extract_fields in H. destruct H as (_ & Hph & _).
  rewrite Hv in Hph. apply scanPatterns_sound in Hph.
  destruct Hph as [Hph | (g & Hg)]; [discriminate|].
  apply acceptPhone_sound in Hg. destruct Hg as (? & ? & _). auto.
Qed.

(** X14: what extraction returns is found again by the comparators. An
    extracted ID number matches every entry that comes down to the same
    digits once spaces and punctuation are removed; an extracted phone
    number matches every entry whose digits hold it, as with a country code
    in front. *)
Theorem extracted_numbers_match (text : str) (data : ExtractedData) :
  extractDataFromText text = Normal data ->
  (forall v entered,
     idNumber data = Some v -> lowerAlnum entered = v ->
     compareFields (Some v) entered = true) /\
  (forall v entered,
     phoneNumber data = Some v -> Substring v (digitsOf entered) ->
     comparePhones (Some v) entered = true).
Proof.
  intros H. split.
  - intros v entered Hv He.
    destruct (extracted_idNumber _ _ _ H Hv) as [Hl Hd].
    assert (Hne : v <> []) by (intros ->; discriminate Hl).
    assert (Tv : truthy v = true) by (destruct v; [contradiction|reflexivity]).
    assert (Te : truthy entered = true)
      by (apply lowerAlnum_truthy; rewrite He; exact Hne).
    unfold compareFields. rewrite Tv, Te. cbn [negb orb].
    rewrite !normalizeText_spec, He, (lowerAlnum_digits v Hd).
    rewrite includes_refl, strEq_refl.
    destruct (_ || _); reflexivity.
  - intros v entered Hv He.
    destruct (extracted_phoneNumber _ _ _ H Hv) as [Hl Hd].
    assert (Hne : v <> []) by (intros ->; discriminate Hl).
    assert (Tv : truthy v = true) by (destruct v; [contradiction|reflexivity]).
    assert (Te : truthy entered = true).
    { apply digitsOf_truthy. intros E. rewrite E in He.
      destruct He as (a & b & He). destruct a; [|discriminate He].
      destruct v; [contradiction|discriminate He]. }
    unfold comparePhones. rewrite Tv, Te. cbn [negb orb].
    rewrite !normalizePhone_spec, (digitsOf_digits v Hd).
    apply includes_spec in He. rewrite He, orb_true_r. reflexivity.
Qed.

Lemma extracted_numbers_match_witness :
  (forall v entered,
     idNumber
       (mkExtractedData None (Some (lit "01/02/1990"))
          (Some (lit "123456789123")) (Some (lit "9876543210"))) = Some v ->
     lowerAlnum entered = v ->
     compareFields (Some v) entered = true) /\
  (forall v entered,
     phoneNumber
       (mkExtractedData None (Some (lit "01/02/1990"))
          (Some (lit "123456789123")) (Some (lit "9876543210"))) = Some v ->
     Substring v (digitsOf entered) ->
     comparePhones (Some v) entered = true).
Proof.
  apply (extracted_numbers_match
           (lit "1234 5678 9123 DOB 01/02/1990 Mobile 9876543210")).
  vm_compute. reflexivity.
Defined.

(** An entry with spaces and one with the country code, as instances. *)
Example extracted_numbers_match_entries :
  compareFields (Some (lit "123456789123")) (lit "1234-5678 9123") = true /\
  comparePhones (Some (lit "9876543210")) (lit "+91 98765-43210") = true.
Proof. split; vm_compute; reflexivity. Qed.

(** * The cleaned text is tidy, and cleaning it again changes nothing *)

Lemma dropWhile_length p (s : str) : length (dropWhile p s) <= length s.
Proof.
  induction s as [|c s IH]; simpl; [lia|]. destruct (p c); simpl; lia.
Qed.

(** The optional iterations of [\s+] read the white space to its end. *)
Lemma repOpt_space (body : cont -> cont) :
  (forall k st,
     body k st =
     match after st with
     | [] => None
     | c :: rest =>
         if isSpace c then k (MState (c :: before st) rest (cap1 st))
         else None
     end) ->
  forall e suf pre cp,
  length suf <= e ->
  exists b,
    repOpt body (fun st => Some st) e (MState pre suf cp)
    = Some (MState b (dropWhile isSpace suf) cp).
Proof.
  intros Hbody.
  induction e as [|e IH]; intros suf pre cp Hl.
  - destruct suf; [|simpl in Hl; lia]. exists pre. reflexivity.
  - cbn [repOpt]. rewrite Hbody. cbn [after before cap1].
    destruct suf as [|c rest].
    + exists pre. reflexivity.
    + cbn [dropWhile]. destruct (isSpace c) eqn:Hc.
      * assert (Hn : (length rest =? length (c :: rest)) = false)
          by (apply Nat.eqb_neq; simpl; lia).
        rewrite Hn.
        destruct (IH rest (c :: pre) cp) as (b & Hb); [simpl in Hl; lia|].
        rewrite Hb. exists b. reflexivity.
      * exists pre. reflexivity.
Qed.

Lemma matchAt_whitespace_run pre c rest :
  isSpace c = true ->
  exists x, matchAt re_whitespace pre (c :: rest) = Some x /\
            length (m0 x) = S (length rest - length (dropWhile isSpace rest)).
Proof.
  intros Hc. unfold matchAt.
  destruct (repOpt_space (m false space) (fun k st => eq_refl)
              (length (c :: rest)) rest (c :: pre) None) as (b & Hb);
    [simpl; lia|].
  assert (E : m (ignoreCase re_whitespace) (source re_whitespace)
                (fun st => Some st) (MState pre (c :: rest) None)
              = if isSpace c
                then repOpt (m false space) (fun st => Some st)
                       (length (c :: rest)) (MState (c :: pre) rest None)
                else None) by reflexivity.
  rewrite E, Hc, Hb.
  eexists. split; [reflexivity|].
  cbn [m0 after]. rewrite length_firstn.
  pose proof (dropWhile_length isSpace rest). cbn [length]. lia.
Qed.

Lemma matchAt_whitespace_none pre suf :
  match suf with [] => True | c :: _ => isSpace c = false end ->
  matchAt re_whitespace pre suf = None.
Proof.
  destruct suf as [|c rest]; intros H; [reflexivity|].
  unfold matchAt.
  assert (E : m (ignoreCase re_whitespace) (source re_whitespace)
                (fun st => Some st) (MState pre (c :: rest) None)
              = if isSpace c
                then repOpt (m false space) (fun st => Some st)
                       (length (c :: rest)) (MState (c :: pre) rest None)
                else None) by reflexivity.
  rewrite E, H. reflexivity.
Qed.

(** [replace(/\s+/g, ' ')] is the collapse of the runs of white space. *)
Lemma replaceFrom_whitespace : forall suf pre,
  replaceFrom re_whitespace (lit " ") 0 pre suf = collapseFrom false suf /\
  replaceFrom re_whitespace (lit " ")
    (length suf - length (dropWhile isSpace suf)) pre suf
  = collapseFrom true suf.
Proof.
  induction suf as [|c suf IH]; intros pre.
  - split; reflexivity.
  - destruct (isSpace c) eqn:Hc.
    + destruct (matchAt_whitespace_run pre c suf Hc) as (x & Hx & Hlen).
      pose proof (dropWhile_length isSpace suf) as Hdl.
      split.
      * cbn [replaceFrom Nat.eqb collapseFrom]. rewrite Hx, Hc, Hlen.
        cbn [Nat.eqb app]. rewrite Nat.sub_succ, Nat.sub_0_r.
        rewrite (proj2 (IH (c :: pre))). reflexivity.
      * cbn [dropWhile collapseFrom]. rewrite Hc.
        replace (length (c :: suf) - length (dropWhile isSpace suf))
          with (S (length suf - length (dropWhile isSpace suf)))
          by (cbn [length]; lia).
        cbn [replaceFrom Nat.eqb app]. rewrite Nat.sub_succ, Nat.sub_0_r.
        rewrite (proj2 (IH (c :: pre))). reflexivity.
    + assert (Hnone : matchAt re_whitespace pre (c :: suf) = None)
        by (apply matchAt_whitespace_none; exact Hc).
      assert (E : replaceFrom re_whitespace (lit " ") 0 pre (c :: suf)
                  = c :: collapseFrom false suf).
      { cbn [replaceFrom Nat.eqb]. rewrite Hnone. cbn [Nat.sub app].
        rewrite (proj1 (IH (c :: pre))). reflexivity. }
      split.
      * rewrite E. cbn [collapseFrom]. rewrite Hc. reflexivity.
      * cbn [dropWhile]. rewrite Hc, Nat.sub_diag, E.
        cbn [collapseFrom]. rewrite Hc. reflexivity.
Qed.

Lemma replace_whitespace_collapse (s : str) :
  replaceAll re_whitespace (lit " ") s = collapseFrom false s.
Proof. apply replaceFrom_whitespace. Qed.

Lemma notSpace_not_blank (c : ascii) :
  isSpace c = false -> Ascii.eqb c " " = false.
Proof.
  destruct c as [[] [] [] [] [] [] [] []]; intros H; try discriminate H;
    reflexivity.
Qed.

Lemma collapseFrom_NoSpaceRun : forall s b, NoSpaceRun b (collapseFrom b s).
Proof.
  induction s as [|c s IH]; intros b; cbn [collapseFrom]; [exact I|].
  destruct (isSpace c) eqn:Hc.
  - destruct b; cbn [app]; [apply IH|].
    cbn [NoSpaceRun]. change (Ascii.eqb " " " ") with true. cbn iota.
    split; [reflexivity | apply IH].
  - cbn [NoSpaceRun]. rewrite (notSpace_not_blank c Hc). apply IH.
Qed.

Lemma collapseFrom_id : forall s b,
  PlainSpaces s -> NoSpaceRun b s -> collapseFrom b s = s.
Proof.
  induction s as [|c s IH]; intros b Hp Hn; [reflexivity|].
  assert (Hp' : PlainSpaces s) by (intros x Hx; apply Hp; right; exact Hx).
  cbn [collapseFrom]. destruct (isSpace c) eqn:Hc.
  - assert (E : c = " "%char) by (apply Hp; [left; reflexivity | exact Hc]).
    subst c. cbn [NoSpaceRun] in Hn.
    change (Ascii.eqb " " " ") with true in Hn. cbn iota in Hn.
    destruct Hn as [-> Hn]. cbn [app]. rewrite (IH true Hp' Hn). reflexivity.
  - cbn [NoSpaceRun] in Hn. rewrite (notSpace_not_blank c Hc) in Hn.
    rewrite (IH false Hp' Hn). reflexivity.
Qed.

Lemma collapseFrom_length : forall s b, length (collapseFrom b s) <= length s.
Proof.
  induction s as [|c s IH]; intros b; cbn [collapseFrom]; [simpl; lia|].
  destruct (isSpace c).
  - specialize (IH true). destruct b; simpl; lia.
  - specialize (IH false). simpl. lia.
Qed.

Lemma replace_class_map cls r s :
  replaceAll (mkRegExp (RClass cls) false true) [r] s
  = map (fun c => if cmem false cls c then r else c) s.
Proof.
  unfold replaceAll. rewrite replaceFrom_class.
  induction s as [|c s IH]; [reflexivity|].
  cbn [flat_map map]. rewrite IH. destruct (cmem false cls c); reflexivity.
Qed.

Lemma NoSpaceRun_map (f : ascii -> ascii) :
  (forall c, Ascii.eqb (f c) " " = Ascii.eqb c " ") ->
  forall s b, NoSpaceRun b s -> NoSpaceRun b (map f s).
Proof.
  intros Hf. induction s as [|c s IH]; intros b H; [exact I|].
  cbn [map NoSpaceRun] in *. rewrite Hf.
  destruct (Ascii.eqb c " ").
  - destruct H as [Hb H]. split; [exact Hb | apply IH; exact H].
  - apply IH. exact H.
Qed.

Lemma bar_map_blank (c : ascii) :
  Ascii.eqb (if cmem false (CChar "|") c then "I"%char else c) " "
  = Ascii.eqb c " ".
Proof. destruct c as [[] [] [] [] [] [] [] []]; reflexivity. Qed.

Lemma zero_map_blank (c : ascii) :
  Ascii.eqb
    (if cmem false (CUnion (CChar "0") (CChar "O")) c then "0"%char else c) " "
  = Ascii.eqb c " ".
Proof. destruct c as [[] [] [] [] [] [] [] []]; reflexivity. Qed.

Lemma matchAt_blankLines_none pre suf :
  ~ In LF suf -> matchAt re_blankLines pre suf = None.
Proof.
  intros Hs. destruct (matchAt re_blankLines pre suf) as [x|] eqn:Hm;
    [|reflexivity].
  exfalso. apply Hs. apply matchAt_sound in Hm.
  destruct Hm as (post & -> & Hw & _).
  cbn [re_blankLines source rseq Matches rchar] in Hw.
  destruct Hw as (w1 & w2 & -> & (c0 & -> & Hc0) & _).
  cbn [cmem] in Hc0. apply Ascii.eqb_eq in Hc0. subst c0.
  left. reflexivity.
Qed.

Lemma replaceFrom_no_match re rep : forall suf pre,
  (forall pre' a suf', suf = a ++ suf' -> matchAt re pre' suf' = None) ->
  replaceFrom re rep 0 pre suf = suf.
Proof.
  induction suf as [|c suf IH]; intros pre H.
  - cbn [replaceFrom Nat.eqb]. rewrite (H pre [] []); reflexivity.
  - cbn [replaceFrom Nat.eqb]. rewrite (H pre [] (c :: suf)) by reflexivity.
    cbn [Nat.sub app]. rewrite IH; [reflexivity|].
    intros pre' a suf' E. apply (H pre' (c :: a)). rewrite E. reflexivity.
Qed.

Lemma replace_blankLines_id rep s :
  ~ In LF s -> replaceAll re_blankLines rep s = s.
Proof.
  intros Hs. apply replaceFrom_no_match.
  intros pre' a suf' E. apply matchAt_blankLines_none.
  intros Hin. apply Hs. rewrite E. apply in_or_app. right. exact Hin.
Qed.

Lemma inner_plain text :
  PlainSpaces
    (replaceAll re_zero (lit "0")
       (replaceAll re_bar (lit "I")
          (replaceAll re_whitespace (lit " ") text))).
Proof.
  apply replace_class_plain.
  - intros x [<-|[]]. discriminate.
  - apply replace_class_plain.
    + intros x [<-|[]]. discriminate.
    + apply replace_whitespace_plain.
Qed.

Lemma cleanOCRText_unfold text :
  cleanOCRText text =
  trim (replaceAll re_zero (lit "0")
          (replaceAll re_bar (lit "I")
             (replaceAll re_whitespace (lit " ") text))).
Proof.
  unfold cleanOCRText. rewrite replace_blankLines_id; [reflexivity|].
  apply PlainSpaces_no_LF. apply inner_plain.
Qed.

Lemma dropWhile_split p (s : str) :
  exists a, s = a ++ dropWhile p s.
Proof.
  induction s as [|c s (a & IH)]; [exists []; reflexivity|].
  cbn [dropWhile]. destruct (p c).
  - exists (c :: a). cbn [app]. rewrite <- IH. reflexivity.
  - exists []. reflexivity.
Qed.

Lemma dropWhile_head p (s : str) c r :
  dropWhile p s = c :: r -> p c = false.
Proof.
  induction s as [|x s IH]; [discriminate|].
  cbn [dropWhile]. destruct (p x) eqn:Hx; [exact IH|].
  intros E. injection E as <- _. exact Hx.
Qed.

Lemma dropWhile_idem p (s : str) :
  dropWhile p (dropWhile p s) = dropWhile p s.
Proof.
  induction s as [|x s IH]; [reflexivity|].
  cbn [dropWhile]. destruct (p x) eqn:Hx; [exact IH|].
  cbn [dropWhile]. rewrite Hx. reflexivity.
Qed.

Lemma dropWhile_id p (s : str) :
  match s with [] => True | c :: _ => p c = false end -> dropWhile p s = s.
Proof. destruct s as [|c s]; [reflexivity|]. cbn [dropWhile]. intros ->. reflexivity. Qed.

(** [trim s] is a piece of [s] that does not start with white space. *)
Lemma trim_piece (s : str) :
  (exists a b, s = a ++ trim s ++ b) /\
  match trim s with [] => True | c :: _ => isSpace c = false end.
Proof.
  unfold trim.
  destruct (dropWhile_split isSpace s) as (a & Ha).
  destruct (dropWhile_split isSpace (rev (dropWhile isSpace s))) as (b & Hb).
  set (y := dropWhile isSpace s) in *.
  set (z := dropWhile isSpace (rev y)) in *.
  assert (Hy : y = rev z ++ rev b).
  { rewrite <- (rev_involutive y), Hb, rev_app_distr. reflexivity. }
  split.
  - exists a, (rev b). rewrite <- Hy. exact Ha.
  - destruct (rev z) as [|c r] eqn:Hz; [exact I|].
    apply (dropWhile_head isSpace s c (r ++ rev b)).
    fold y. rewrite Hy. reflexivity.
Qed.

Lemma trim_idem (s : str) : trim (trim s) = trim s.
Proof.
  destruct (trim_piece s) as [_ Hh].
  unfold trim at 1. rewrite (dropWhile_id isSpace (trim s) Hh).
  unfold trim. rewrite rev_involutive, dropWhile_idem. reflexivity.
Qed.

Lemma trim_length (s : str) : length (trim s) <= length s.
Proof.
  unfold trim. rewrite length_rev.
  pose proof (dropWhile_length isSpace (rev (dropWhile isSpace s))) as H1.
  pose proof (dropWhile_length isSpace s) as H2.
  rewrite length_rev in H1. lia.
Qed.

Lemma NoSpaceRun_weaken : forall s b, NoSpaceRun b s -> NoSpaceRun false s.
Proof.
  intros [|c s] b H; [exact I|]. cbn [NoSpaceRun] in *.
  destruct (Ascii.eqb c " "); [|exact H].
  destruct H as [_ H]. split; [reflexivity | exact H].
Qed.

Lemma NoSpaceRun_suffix : forall a s b,
  NoSpaceRun b (a ++ s) -> NoSpaceRun false s.
Proof.
  induction a as [|c a IH]; intros s b H.
  - eapply NoSpaceRun_weaken. exact H.
  - cbn [app NoSpaceRun] in H. destruct (Ascii.eqb c " ").
    + destruct H as [_ H]. eapply IH. exact H.
    + eapply IH. exact H.
Qed.

Lemma NoSpaceRun_prefix : forall s a b,
  NoSpaceRun b (s ++ a) -> NoSpaceRun b s.
Proof.
  induction s as [|c s IH]; intros a b H; [exact I|].
  cbn [app NoSpaceRun] in *. destruct (Ascii.eqb c " ").
  - destruct H as [Hb H]. split; [exact Hb | eapply IH; exact H].
  - eapply IH. exact H.
Qed.

Lemma NoSpaceRun_head (s : str) :
  NoSpaceRun false s ->
  match s with [] => True | c :: _ => isSpace c = false end ->
  NoSpaceRun true s.
Proof.
  destruct s as [|c s]; [intros; exact I|].
  cbn [NoSpaceRun]. intros H Hc. rewrite (notSpace_not_blank c Hc) in *.
  exact H.
Qed.

Lemma NoSpaceRun_trim (s : str) b : NoSpaceRun b s -> NoSpaceRun true (trim s).
Proof.
  intros H. destruct (trim_piece s) as [(a & c & Hs) Hh].
  apply NoSpaceRun_head; [|exact Hh].
  rewrite Hs in H. apply NoSpaceRun_suffix in H.
  eapply NoSpaceRun_prefix. exact H.
Qed.

Lemma cleanOCRText_NoSpaceRun text : NoSpaceRun true (cleanOCRText text).
Proof.
  rewrite cleanOCRText_unfold. apply (NoSpaceRun_trim _ false).
  change (lit "0") with ["0"%char]. change (lit "I") with ["I"%char].
  unfold re_zero, re_bar. rewrite !replace_class_map.
  apply (NoSpaceRun_map _ zero_map_blank).
  apply (NoSpaceRun_map _ bar_map_blank).
  rewrite replace_whitespace_collapse. apply collapseFrom_NoSpaceRun.
Qed.

Lemma cleanOCRText_trimmed text : trim (cleanOCRText text) = cleanOCRText text.
Proof. rewrite cleanOCRText_unfold. apply trim_idem. Qed.

Lemma cleanOCRText_length text : length (cleanOCRText text) <= length text.
Proof.
  rewrite cleanOCRText_unfold.
  change (lit "0") with ["0"%char]. change (lit "I") with ["I"%char].
  unfold re_zero, re_bar. rewrite !replace_class_map.
  eapply Nat.le_trans; [apply trim_length|].
  rewrite !length_map, replace_whitespace_collapse.
  apply collapseFrom_length.
Qed.

(** X15: the cleaned text is tidy: it has no two spaces in a row, it neither
    starts nor ends with white space ([trim] leaves it as it is), and it is
    never longer than the raw text. *)
Theorem cleanOCRText_tidy (text : str) :
  NoSpaceRun true (cleanOCRText text) /\
  trim (cleanOCRText text) = cleanOCRText text /\
  length (cleanOCRText text) <= length text.
Proof.
  split; [apply cleanOCRText_NoSpaceRun|].
  split; [apply cleanOCRText_trimmed | apply cleanOCRText_length].
Qed.

Lemma replace_class_fixed cls rep s :
  (forall c, In c s -> cmem false cls c = true -> rep = [c]) ->
  replaceAll (mkRegExp (RClass cls) false true) rep s = s.
Proof.
  intros H. unfold replaceAll. rewrite replaceFrom_class.
  induction s as [|c s IH]; [reflexivity|].
  cbn [flat_map]. rewrite IH by (intros x Hx; apply H; right; exact Hx).
  destruct (cmem false cls c) eqn:Hc; [|reflexivity].
  rewrite (H c (or_introl eq_refl) Hc). reflexivity.
Qed.

Lemma cleanOCRText_idem (text : str) :
  cleanOCRText (cleanOCRText text) = cleanOCRText text.
Proof.
  set (s := cleanOCRText text).
  assert (Hp : PlainSpaces s) by apply cleanOCRText_plain.
  assert (Hn : NoSpaceRun false s)
    by (eapply NoSpaceRun_weaken; apply cleanOCRText_NoSpaceRun).
  assert (Hc : forall c, In c s -> c <> "|"%char /\ c <> "O"%char)
    by (intros c; apply cleanOCRText_no_bar_no_O).
  rewrite (cleanOCRText_unfold s).
  rewrite replace_whitespace_collapse, (collapseFrom_id s false Hp Hn).
  unfold re_bar, re_zero.
  rewrite (replace_class_fixed (CChar "|")).
  - rewrite (replace_class_fixed (CUnion (CChar "0") (CChar "O"))).
    + apply cleanOCRText_trimmed.
    + intros c Hin Hm. destruct (Hc c Hin) as [_ HO].
      cbn [cmem] in Hm. apply orb_true_iff in Hm.
      destruct Hm as [Hm|Hm]; apply Ascii.eqb_eq in Hm; subst c;
        [reflexivity | contradiction HO; reflexivity].
  - intros c Hin Hm. destruct (Hc c Hin) as [Hb _].
    cbn [cmem] in Hm. apply Ascii.eqb_eq in Hm. subst c.
    contradiction Hb; reflexivity.
Qed.

(** X16: cleaning is idempotent: the cleaned text cleaned again is the
    cleaned text; so extraction gives the same for a text and for its
    cleaned form. *)
Theorem cleanOCRText_idempotent (text : str) :
  cleanOCRText (cleanOCRText text) = cleanOCRText text /\
  extractDataFromText (cleanOCRText text) = extractDataFromText text.
Proof.
  split; [apply cleanOCRText_idem|].
  unfold extractDataFromText. rewrite cleanOCRText_idem. reflexivity.
Qed.

Lemma cleanOCRText_origin text c :
  In c (cleanOCRText text) ->
  In c text \/ c = " "%char \/ c = "I"%char \/ c = "0"%char.
Proof.
  intros H. apply cleanOCRText_In in H.
  apply replace_class_In in H. destruct H as [[<-|[]] | [H _]]; [auto|].
  apply replace_class_In in H. destruct H as [[<-|[]] | [H _]]; [auto|].
  apply replaceFrom_In in H.
  destruct H as [([<-|[]] & _) | (a & suf' & -> & _)]; [auto|].
  left. apply in_elt.
Qed.

(** X17: a text without any slash and without any dash makes extraction
    throw: no date can be found, the third date pattern is reached, and an
    ID number, a phone number or a name that the text holds is lost; the
    upload of an accepted file ends in the processing-error notice. *)
Theorem no_separator_no_extraction (text : str) :
  ~ In "/"%char text -> ~ In "-"%char text ->
  extractDataFromText text = Throw TypeError /\
  forall file,
    startsWith (File.type file) (lit "image/") = true ->
    (File.size file <= 10485760)%N ->
    handleFileSelect file (Normal text) = ProcessingError.
Proof.
  intros Hs Hd.
  assert (E : extractDataFromText text = Throw TypeError).
  { destruct (extractDataFromText text) as [data|[]] eqn:He; [|reflexivity].
    exfalso. apply extracted_date in He.
    destruct He as (v & _ & (d & mo & y & sep & -> & Hsep & _) & Hsub).
    assert (Hin : In sep (cleanOCRText text)).
    { eapply Substring_In; [exact Hsub|]. apply in_elt. }
    apply cleanOCRText_origin in Hin.
    destruct Hsep as [->| ->];
      destruct Hin as [Hin | [Hin | [Hin | Hin]]];
      try discriminate Hin; contradiction. }
  split; [exact E|].
  intros file Ht Hsz. unfold handleFileSelect, processDocument.
  rewrite Ht, E. cbn [negb].
  apply N.ltb_ge in Hsz. change (10 * 1024 * 1024)%N with 10485760%N.
  rewrite Hsz. reflexivity.
Qed.

Lemma no_separator_no_extraction_witness :
  extractDataFromText (lit "Ravi Kumar 1234 5678 9123 Mobile 9876543210")
  = Throw TypeError /\
  forall file,
    startsWith (File.type file) (lit "image/") = true ->
    (File.size file <= 10485760)%N ->
    handleFileSelect file
      (Normal (lit "Ravi Kumar 1234 5678 9123 Mobile 9876543210"))
    = ProcessingError.
Proof.
  apply (no_separator_no_extraction
           (lit "Ravi Kumar 1234 5678 9123 Mobile 9876543210"));
    vm_compute; intuition discriminate.
Defined.
